(** * stampcombos: the combination finder of [app.py]

    A shallow embedding of [calculate_stamp_combos] (app.py, lines 15-34) and
    of the Python built-ins and [itertools] generators it calls, and of the
    decisions and numbers of [main] (lines 37-227), followed by their
    properties.

    Python [int] values are unbounded and are modelled by [Z]; Python [float]
    values are IEEE 754 binary64 and are modelled by Rocq's primitive floats,
    which are the same format with the same rounding (nearest, ties to even).
    A tuple of stamps is a [list Z]. *)

From Stdlib Require Import ZArith List Bool Arith Lia Floats Sorted Permutation.
From Stdlib Require Import Ascii.
From Stdlib Require String.
Import String.StringSyntax.
Import ListNotations.

Set Warnings "-inexact-float".

(** ** Python built-ins *)

Module Py.

(** The two exceptions [int(x)] raises on a float. *)
Inductive exn : Set := ValueError | OverflowError.

Inductive result (A : Type) : Type :=
| Ok (a : A)
| Raise (e : exn).
Arguments Ok {A} a.
Arguments Raise {A} e.

Definition bind {A B : Type} (m : result A) (k : A -> result B) : result B :=
  match m with
  | Ok a => k a
  | Raise e => Raise e
  end.

(** [int(x)] for a float [x]: truncation towards zero; [ValueError] on a
    NaN and [OverflowError] on an infinity. *)
Definition int (x : float) : result Z :=
  match Prim2SF x with
  | S754_zero _ => Ok 0%Z
  | S754_infinity _ => Raise OverflowError
  | S754_nan => Raise ValueError
  | S754_finite s m e =>
      let mag := if (0 <=? e)%Z then Z.shiftl (Zpos m) e
                 else Z.shiftr (Zpos m) (- e) in
      Ok (if s then (- mag)%Z else mag)
  end.

(** [round(x)] for a float [x]: the nearest integer, ties to even. *)
Definition round (x : float) : result Z :=
  match Prim2SF x with
  | S754_zero _ => Ok 0%Z
  | S754_infinity _ => Raise OverflowError
  | S754_nan => Raise ValueError
  | S754_finite s m e =>
      let mag :=
        if (0 <=? e)%Z then Z.shiftl (Zpos m) e
        else
          let q := Z.shiftr (Zpos m) (- e) in
          let twice_rem := (2 * (Zpos m - Z.shiftl q (- e)))%Z in
          let unit := Z.shiftl 1 (- e) in
          if (twice_rem <? unit)%Z then q
          else if (unit <? twice_rem)%Z then (q + 1)%Z
          else if Z.even q then q else (q + 1)%Z in
      Ok (if s then (- mag)%Z else mag)
  end.

(** [math.isfinite(x)]: [x] is neither a NaN nor an infinity. *)
Definition isfinite (x : float) : bool :=
  match Prim2SF x with
  | S754_zero _ | S754_finite _ _ _ => true
  | S754_infinity _ | S754_nan => false
  end.

(** [range(start, stop)]. *)
Definition range (start stop : Z) : list Z :=
  map (fun i => (start + Z.of_nat i)%Z) (seq 0 (Z.to_nat (stop - start))).

(** [sum(xs)]: left to right from 0. *)
Definition sum (xs : list Z) : Z := fold_left Z.add xs 0%Z.

End Py.

Notation "x <- m ;; k" := (Py.bind m (fun x => k))
  (at level 61, m at next level, right associativity).

(** ** itertools *)

Module Itertools.

(** [tuple(pool[i] for i in indices)]. Every index the generator below
    produces is in range (lemma [cwr_indices_In]), so the default of
    [nth] is never returned. *)
Definition pick (pool : list Z) (indices : list nat) : list Z :=
  map (fun i => nth i pool 0%Z) indices.

(** The scan [for i in reversed(range(r)): if indices[i] != n - 1: break]:
    the rightmost position whose index is not [n - 1], or [None] when the
    loop runs to its [else]. *)
Definition rightmost_free (n : nat) (indices : list nat) : option nat :=
  find (fun i => negb (nth i indices 0 =? n - 1))
       (rev (seq 0 (length indices))).

(** One pass of the [while True] body up to the next [yield]:
    [indices[i:] = [indices[i] + 1] * (r - i)], or [None] on [return]. *)
Definition next_indices (n : nat) (indices : list nat) : option (list nat) :=
  match rightmost_free n indices with
  | None => None
  | Some i =>
      Some (firstn i indices
            ++ repeat (nth i indices 0 + 1) (length indices - i))
  end.

(** The [while True] loop, started after a [yield] of [indices]: the tuples
    yielded until the generator returns. [None] when [fuel] passes of the
    loop were not enough to reach the [return]. *)
Fixpoint cwr_loop (fuel : nat) (pool : list Z) (indices : list nat)
  : option (list (list Z)) :=
  match fuel with
  | O => None
  | S fuel' =>
      match next_indices (length pool) indices with
      | None => Some []
      | Some indices' =>
          option_map (cons (pick pool indices'))
                     (cwr_loop fuel' pool indices')
      end
  end.

(** [combinations_with_replacement(iterable, r)] run with [fuel] passes of
    its loop. *)
Definition cwr_with_fuel (fuel : nat) (pool : list Z) (r : nat)
  : option (list (list Z)) :=
  let n := length pool in
  if (n =? 0) && negb (r =? 0) then Some []
  else
    let indices := repeat 0 r in
    option_map (cons (pick pool indices)) (cwr_loop fuel pool indices).

(** [list(combinations_with_replacement(pool, r))]. The loop yields at most
    [n ^ r] tuples, so that many passes reach its [return] (theorem
    [cwr_with_fuel_enough]) and the last branch is never taken. *)
Definition combinations_with_replacement (pool : list Z) (r : nat)
  : list (list Z) :=
  match cwr_with_fuel (length pool ^ r) pool r with
  | Some tuples => tuples
  | None => []
  end.

(** [chain] applied to the unpacked [iterables]. *)
Definition chain {A : Type} (iterables : list (list A)) : list A :=
  concat iterables.

End Itertools.

(** ** app.py *)

(** [price_cents = int(price_dollars * 100)]: the int [100] is converted to
    the float [100.0] and the product is a float product. *)
Definition to_cents (dollars : float) : Py.result Z :=
  Py.int (dollars * 100)%float.

(** Lines 24-29: the chained generators, as the list of what they yield. *)
Definition combos (stamps : list Z) (max_stamps : Z) : list (list Z) :=
  Itertools.chain
    (map (fun n => Itertools.combinations_with_replacement stamps (Z.to_nat n))
         (Py.range 1 (max_stamps + 1))).

(** The condition of the comprehension, lines 33. *)
Definition in_budget (price_cents max_price_cents : Z) (combo : list Z) : bool :=
  (Py.sum combo >=? price_cents)%Z && (Py.sum combo <=? max_price_cents)%Z.

Definition calculate_stamp_combos
  (price_dollars : float) (stamps : list Z) (max_stamps : Z)
  (max_price_dollars : float) : Py.result (list (list Z)) :=
  price_cents <- to_cents price_dollars ;;
  max_price_cents <- to_cents max_price_dollars ;;
  Py.Ok (filter (in_budget price_cents max_price_cents)
                (combos stamps max_stamps)).

(** ** The enumeration behind [combinations_with_replacement]

    The index tuples the generator walks through, written as a recursion on
    the size of the tuple: used to reason about the loop, not to run it. *)

Module Enum.

(** The non-decreasing tuples of [r] indices taken from [lo .. n - 1], in
    lexicographic order. *)
Fixpoint cwr_indices (n r lo : nat) : list (list nat) :=
  match r with
  | O => [[]]
  | S r' =>
      flat_map (fun i => map (cons i) (cwr_indices n r' i)) (seq lo (n - lo))
  end.

(** [walk n a l z]: the list [l] starts at the tuple [a], ends at [z], and
    each of its tuples is followed by its [next_indices]. *)
Inductive walk (n : nat) : list nat -> list (list nat) -> list nat -> Prop :=
| walk_one a : walk n a [a] a
| walk_step a b l z :
    Itertools.next_indices n a = Some b ->
    walk n b l z ->
    walk n a (a :: l) z.

End Enum.

(** ** The finder as the specification words it

    Section 4.1: for each size [n] from 1 to [max_count], all
    combinations-with-replacement of size [n] drawn from [denominations] in
    input order; the per-size sequences concatenated in increasing order of
    [n]; the concatenation filtered to the sums in [[target, maximum]]; no
    further sorting. *)

Module Spec.

(** All tuples of [r] positions of a list of [n] denominations, in
    lexicographic order. *)
Fixpoint positions (n r : nat) : list (list nat) :=
  match r with
  | O => [[]]
  | S r' => flat_map (fun i => map (cons i) (positions n r')) (seq 0 n)
  end.

(** A tuple of positions that never steps back in the input order: one
    representative for each multiset of positions. *)
Fixpoint nondecreasing (t : list nat) : bool :=
  match t with
  | i :: (j :: _) as t' => (i <=? j) && nondecreasing t'
  | _ => true
  end.

(** The lexicographic order on position tuples. *)
Inductive lex_lt : list nat -> list nat -> Prop :=
| lex_head i j s t : i < j -> lex_lt (i :: s) (j :: t)
| lex_tail i s t : lex_lt s t -> lex_lt (i :: s) (i :: t).

Definition total (combination : list Z) : Z :=
  fold_right Z.add 0%Z combination.

(** The combination drawn at a tuple of positions: the denominations that
    stand at these positions of the input list, in the order of the tuple. *)
Definition drawn_at (denominations : list Z) (t : list nat) : list Z :=
  flat_map (fun position =>
              match nth_error denominations position with
              | Some denomination => [denomination]
              | None => []
              end)
           t.

Definition combinations_of_size (denominations : list Z) (n : nat)
  : list (list Z) :=
  map (drawn_at denominations)
      (filter nondecreasing (positions (length denominations) n)).

Definition find_combinations
  (denominations : list Z) (target : Z) (max_count : Z) (maximum : Z)
  : list (list Z) :=
  filter (fun c => (target <=? total c)%Z && (total c <=? maximum)%Z)
         (flat_map (combinations_of_size denominations)
                   (seq 1 (Z.to_nat max_count))).

End Spec.

(** ** Counting the candidates *)

Module Count.

(** The binomial coefficient, by Pascal's rule. *)
Fixpoint binomial (n k : nat) : nat :=
  match n, k with
  | _, O => 1
  | O, S _ => 0
  | S n', S k' => binomial n' k' + binomial n' k
  end.

End Count.

(** ** The rest of [app.py]: [main]

    [main] is a Streamlit script: it reads five widgets, shows messages and
    a table, and calls [calculate_stamp_combos] when the button is pressed.
    The widgets' values are the inputs of the model and what is shown is its
    output. Layout calls (titles, columns, the spinner, the expander) show
    nothing that depends on the inputs and are left out; so is the
    formatting of numbers into the strings of the table and of the metrics,
    and with it the sort of the table rows by their formatted cost
    (line 153): the model keeps the integers these strings are made from. *)

(** *** Strings

    A [str] is the list of its characters; the characters are the code
    points below 256. *)

Module Str.

Definition str : Set := list ascii.

Definition code (c : ascii) : nat := nat_of_ascii c.

(** [c.isspace()] for a code point below 256. *)
Definition isspace (c : ascii) : bool :=
  let n := code c in
  ((9 <=? n) && (n <=? 13)) || ((28 <=? n) && (n <=? 32))
  || (n =? 133) || (n =? 160).

Fixpoint lstrip (s : str) : str :=
  match s with
  | c :: s' => if isspace c then lstrip s' else s
  | [] => []
  end.

Definition rstrip (s : str) : str := rev (lstrip (rev s)).

(** [s.strip()]. *)
Definition strip (s : str) : str := rstrip (lstrip s).

(** [s.split(sep)] for a one-character separator: the fields between the
    separators, empty ones included; one empty field for the empty string. *)
Fixpoint split (sep : ascii) (s : str) : list str :=
  match s with
  | [] => [[]]
  | c :: s' =>
      if Ascii.eqb c sep then [] :: split sep s'
      else
        match split sep s' with
        | field :: fields => (c :: field) :: fields
        | [] => [[c]]
        end
  end.

(** The white space [int(s)] skips at both ends of [s]. *)
Definition int_space (c : ascii) : bool :=
  let n := code c in
  ((9 <=? n) && (n <=? 13)) || (n =? 32) || (n =? 133) || (n =? 160).

Fixpoint skip_int_space (s : str) : str :=
  match s with
  | c :: s' => if int_space c then skip_int_space s' else s
  | [] => []
  end.

Definition digit (c : ascii) : option Z :=
  let n := code c in
  if (48 <=? n) && (n <=? 57) then Some (Z.of_nat (n - 48)) else None.

(** The digits of [int(s)], read from the left: the value so far, the
    number of digits so far, whether the last character was an underscore.
    The scan stops at the first character that is neither; underscores may
    only stand alone between two digits. *)
Fixpoint scan_digits (s : str) (value : Z) (digits : nat) (prev_underscore : bool)
  : option (Z * nat * str) :=
  match s with
  | c :: s' =>
      if Ascii.eqb c "_"%char then
        if prev_underscore then None
        else scan_digits s' value digits true
      else
        match digit c with
        | Some d => scan_digits s' (10 * value + d)%Z (S digits) false
        | None => if prev_underscore then None else Some (value, digits, s)
        end
  | [] => if prev_underscore then None else Some (value, digits, [])
  end.

(** The most digits [int(s)] converts ([sys.int_max_str_digits]). *)
Definition int_max_str_digits : nat := 4300.

(** [int(s)] for a string [s], in base 10; [None] is its [ValueError]. *)
Definition int (s : str) : option Z :=
  let s := skip_int_space s in
  let '(negative, s) :=
    match s with
    | c :: s' =>
        if Ascii.eqb c "-"%char then (true, s')
        else if Ascii.eqb c "+"%char then (false, s')
        else (false, s)
    | [] => (false, s)
    end in
  match s with
  | [] => None
  | c :: _ =>
      if Ascii.eqb c "_"%char then None
      else
        match scan_digits s 0%Z 0 false with
        | Some (value, digits, rest) =>
            if digits =? 0 then None
            else if negb (forallb int_space rest) then None
            else if int_max_str_digits <? digits then None
            else Some (if negative then (- value)%Z else value)
        | None => None
        end
  end.

End Str.

(** String literals as [str]. *)
Module Literal.
Import String.
Definition str (s : string) : Str.str := list_ascii_of_string s.
End Literal.

(** *** [min] and [max] *)

Module PyMin.

(** The loop of [min(items, key=key)]: an item replaces the best so far
    when its key is smaller, so the first of the smallest is kept. *)
Fixpoint min_from {A : Type} (key : A -> Z) (best : A) (items : list A) : A :=
  match items with
  | [] => best
  | item :: items' =>
      min_from key (if (key item <? key best)%Z then item else best) items'
  end.

(** [min(items, key=key)]: [ValueError] on an empty sequence. *)
Definition min_by {A : Type} (key : A -> Z) (items : list A) : Py.result A :=
  match items with
  | [] => Py.Raise Py.ValueError
  | first :: rest => Py.Ok (min_from key first rest)
  end.

Fixpoint max_from {A : Type} (key : A -> Z) (best : A) (items : list A) : A :=
  match items with
  | [] => best
  | item :: items' =>
      max_from key (if (key item >? key best)%Z then item else best) items'
  end.

(** [max(items, key=key)]. *)
Definition max_by {A : Type} (key : A -> Z) (items : list A) : Py.result A :=
  match items with
  | [] => Py.Raise Py.ValueError
  | first :: rest => Py.Ok (max_from key first rest)
  end.

End PyMin.

(** [len(xs)]. *)
Definition len {A : Type} (xs : list A) : Z := Z.of_nat (length xs).

(** *** The stamps field, lines 61-75 *)

(** Line 63: [[int(x.strip()) for x in stamps_input.split(',') if x.strip()]];
    [None] when an [int] raises its [ValueError]. *)
Fixpoint ints_of_fields (fields : list Str.str) : option (list Z) :=
  match fields with
  | [] => Some []
  | x :: fields' =>
      match Str.strip x with
      | [] => ints_of_fields fields'
      | _ :: _ =>
          match Str.int (Str.strip x) with
          | Some stamp => option_map (cons stamp) (ints_of_fields fields')
          | None => None
          end
      end
  end.

Definition parse_stamps (stamps_input : Str.str) : option (list Z) :=
  ints_of_fields (Str.split ","%char stamps_input).

(** What the stamps field shows. *)
Inductive stamps_message : Type :=
| Loaded (stamps : list Z)        (* line 66, st.success *)
| EnterAtLeastOne                 (* line 71, st.error *)
| EnterValidNumbers               (* line 73, st.error *)
| EnterDenominations.             (* line 75, st.info *)

(** Lines 61-75: the message, and the local variable [stamps], which is
    bound only when line 63 completes. *)
Definition load_stamps (stamps_input : Str.str)
  : stamps_message * option (list Z) :=
  match stamps_input with
  | [] => (EnterDenominations, None)
  | _ :: _ =>
      match parse_stamps stamps_input with
      | Some stamps =>
          match stamps with
          | _ :: _ => (Loaded stamps, Some stamps)
          | [] => (EnterAtLeastOne, Some stamps)
          end
      | None => (EnterValidNumbers, None)
      end
  end.

(** *** The results, lines 130-215 *)

(** The numbers of one row of the table, lines 139-143. *)
Record row : Type := {
  row_combo : list Z;
  total_cents : Z;
  stamps_used : Z;
  overpayment_cents : Z
}.

Definition table_row (price : float) (combo : list Z) : Py.result row :=
  let total := Py.sum combo in
  let used := len combo in
  price_cents <- to_cents price ;;
  Py.Ok {| row_combo := combo;
           total_cents := total;
           stamps_used := used;
           overpayment_cents := (total - price_cents)%Z |}.

(** The loop of lines 138-150: the value of [results_data] when the loop
    ends, the rows in the order they are appended. Line 153 then sorts this
    list in place by the formatted cost of each row; that sort reorders the
    rows and changes none of them, and it is not modelled: what is proved of
    the rows below is proved for every reordering of them. *)
Fixpoint results_data (price : float) (valid_combos : list (list Z))
  : Py.result (list row) :=
  match valid_combos with
  | [] => Py.Ok []
  | combo :: valid_combos' =>
      r <- table_row price combo ;;
      rows <- results_data price valid_combos' ;;
      Py.Ok (r :: rows)
  end.

(** Line 153, [results_data.sort(key=...)]: the list the table shows is the
    list of the loop, reordered. Which order it is depends on the formatted
    costs and is left open: [shown] may be any reordering. *)
Definition sorted_in_place (data shown : list row) : Prop :=
  Permutation data shown.

(** The numbers behind the metrics and the two recommendations. *)
Record report : Type := {
  rows : list row;                 (* lines 138-150, before the sort *)
  total_combinations : Z;          (* line 167 *)
  min_total_cents : Z;             (* line 170 *)
  max_total_cents : Z;             (* line 175 *)
  min_stamps : Z;                  (* line 180 *)
  min_overpay_combo : list Z;      (* line 188 *)
  min_overpay_cents : Z;           (* line 191 *)
  min_stamps_combo : list Z        (* line 195 *)
}.

Definition results_block (price : float) (valid_combos : list (list Z))
  : Py.result report :=
  data <- results_data price valid_combos ;;
  min_total <- PyMin.min_by (fun total => total) (map Py.sum valid_combos) ;;
  max_total <- PyMin.max_by (fun total => total) (map Py.sum valid_combos) ;;
  fewest <- PyMin.min_by (fun n => n) (map len valid_combos) ;;
  price_cents <- to_cents price ;;
  overpay_combo <-
    PyMin.min_by (fun x => (Py.sum x - price_cents)%Z) valid_combos ;;
  stamps_combo <- PyMin.min_by len valid_combos ;;
  Py.Ok {| rows := data;
           total_combinations := len valid_combos;
           min_total_cents := min_total;
           max_total_cents := max_total;
           min_stamps := fewest;
           min_overpay_combo := overpay_combo;
           min_overpay_cents := (Py.sum overpay_combo - price_cents)%Z;
           min_stamps_combo := stamps_combo |}.

(** *** The button, lines 109-227 *)

Record widgets : Type := {
  stamps_input : Str.str;          (* st.text_input *)
  price : option float;            (* st.number_input; None when empty *)
  max_price : option float;
  max_stamps : option Z;
  button : bool                    (* st.button *)
}.

Inductive missing : Set :=
| NoStamps | NoPrice | NoMaxPrice | NoMaxStamps.

(** An exception that leaves [main]: [except ValueError] catches no other. *)
Inductive uncaught : Set :=
| UnboundLocalError              (* [stamps] read before it is bound *)
| Overflow.                      (* the [OverflowError] of [int] *)

Inductive outcome : Type :=
| NotPressed
| Rejected (what : missing)      (* lines 111-122: st.error and return *)
| Found (r : report)             (* lines 130-215 *)
| NoneFound                      (* lines 217-224: st.warning *)
| ErrorShown                     (* line 227: a ValueError, caught *)
| Crashed (e : uncaught).

(** What a result of the [try] block becomes. *)
Definition leave_try (r : Py.result outcome) : outcome :=
  match r with
  | Py.Ok o => o
  | Py.Raise Py.ValueError => ErrorShown
  | Py.Raise Py.OverflowError => Crashed Overflow
  end.

Definition on_button (w : widgets) (stamps : option (list Z)) : outcome :=
  match stamps_input w with
  | [] => Rejected NoStamps
  | _ :: _ =>
      match price w, max_price w, max_stamps w with
      | None, _, _ => Rejected NoPrice
      | Some _, None, _ => Rejected NoMaxPrice
      | Some _, Some _, None => Rejected NoMaxStamps
      | Some price, Some max_price, Some max_stamps =>
          match stamps with
          | None => Crashed UnboundLocalError
          | Some stamps =>
              leave_try
                (valid_combos <-
                   calculate_stamp_combos price stamps max_stamps max_price ;;
                 match valid_combos with
                 | _ :: _ =>
                     r <- results_block price valid_combos ;;
                     Py.Ok (Found r)
                 | [] => Py.Ok NoneFound
                 end)
          end
      end
  end.

Definition main (w : widgets) : stamps_message * outcome :=
  let '(message, stamps) := load_stamps (stamps_input w) in
  (message, if button w then on_button w stamps else NotPressed).

(** * Properties *)

(** ** The loop of [combinations_with_replacement] *)

Section NextIndices.

Variable n : nat.

Lemma find_snoc {A : Type} (f : A -> bool) (l : list A) (x : A) :
  find f (l ++ [x]) =
  match find f l with
  | Some y => Some y
  | None => if f x then Some x else None
  end.
Proof.
  induction l as [|a l IH]; simpl.
  - reflexivity.
  - destruct (f a); [reflexivity | exact IH].
Qed.

Lemma find_map_S (f g : nat -> bool) (l : list nat) :
  (forall j, f (S j) = g j) ->
  find f (map S l) = option_map S (find g l).
Proof.
  intros Hfg. induction l as [|a l IH]; simpl.
  - reflexivity.
  - rewrite Hfg. destruct (g a); [reflexivity | exact IH].
Qed.

Lemma rightmost_free_cons (i : nat) (t : list nat) :
  Itertools.rightmost_free n (i :: t) =
  match Itertools.rightmost_free n t with
  | Some j => Some (S j)
  | None => if i =? n - 1 then None else Some 0
  end.
Proof.
  unfold Itertools.rightmost_free.
  cbn [length]. rewrite <- cons_seq, <- seq_shift.
  cbn [rev]. rewrite <- map_rev, find_snoc.
  rewrite (find_map_S _ (fun j => negb (nth j t 0 =? n - 1))) by reflexivity.
  destruct (find _ (rev (seq 0 (length t)))); cbn [option_map nth].
  - reflexivity.
  - destruct (i =? n - 1); reflexivity.
Qed.

(** The loop body, by recursion on the tuple: the tail is advanced when it
    can be; otherwise the head is, and the whole tuple is reset to it. *)
Lemma next_indices_cons (i : nat) (t : list nat) :
  Itertools.next_indices n (i :: t) =
  match Itertools.next_indices n t with
  | Some t' => Some (i :: t')
  | None =>
      if i =? n - 1 then None else Some (repeat (i + 1) (S (length t)))
  end.
Proof.
  unfold Itertools.next_indices. rewrite rightmost_free_cons.
  destruct (Itertools.rightmost_free n t) as [j|].
  - reflexivity.
  - destruct (i =? n - 1); reflexivity.
Qed.

Lemma next_indices_nil : Itertools.next_indices n [] = None.
Proof. reflexivity. Qed.

End NextIndices.

Section Walk.

Variable n : nat.

Lemma next_indices_top (r : nat) :
  Itertools.next_indices n (repeat (n - 1) r) = None.
Proof.
  induction r as [|r IH]; cbn [repeat].
  - reflexivity.
  - rewrite next_indices_cons, IH, Nat.eqb_refl. reflexivity.
Qed.

Lemma walk_app a l1 m b l2 z :
  Enum.walk n a l1 m ->
  Itertools.next_indices n m = Some b ->
  Enum.walk n b l2 z ->
  Enum.walk n a (l1 ++ l2) z.
Proof.
  intros W1 Hnext W2. induction W1 as [a | a c l m Hac W1 IH]; cbn [app].
  - now apply Enum.walk_step with (b := b).
  - apply Enum.walk_step with (b := c); auto.
Qed.

Lemma walk_map_cons i a l z :
  Enum.walk n a l z ->
  Enum.walk n (i :: a) (map (cons i) l) (i :: z).
Proof.
  induction 1 as [a | a b l z Hab W IH]; cbn [map].
  - constructor.
  - apply Enum.walk_step with (b := i :: b); [|exact IH].
    now rewrite next_indices_cons, Hab.
Qed.

Lemma walk_nonempty a l z : Enum.walk n a l z -> exists l', l = a :: l'.
Proof. destruct 1; eauto. Qed.

(** From [lo] upwards the blocks of [cwr_indices] follow one another. *)
Lemma walk_blocks (r d lo : nat) :
  (forall i, i < n ->
     Enum.walk n (repeat i r) (Enum.cwr_indices n r i) (repeat (n - 1) r)) ->
  lo + S d = n ->
  Enum.walk n (repeat lo (S r))
    (flat_map (fun i => map (cons i) (Enum.cwr_indices n r i)) (seq lo (S d)))
    (repeat (n - 1) (S r)).
Proof.
  intros IHr. revert lo. induction d as [|d IHd]; intros lo Hlo.
  - cbn [seq flat_map]. rewrite app_nil_r.
    replace (n - 1) with lo by lia. cbn [repeat].
    apply walk_map_cons.
    replace lo with (n - 1) at 3 by lia. apply IHr. lia.
  - change (seq lo (S (S d))) with (lo :: seq (S lo) (S d)).
    cbn [flat_map].
    apply walk_app with (m := lo :: repeat (n - 1) r)
                        (b := repeat (S lo) (S r)).
    + cbn [repeat]. apply walk_map_cons, IHr. lia.
    + rewrite next_indices_cons, next_indices_top.
      destruct (Nat.eqb_spec lo (n - 1)) as [E|_]; [lia|].
      rewrite repeat_length, Nat.add_1_r. reflexivity.
    + apply IHd. lia.
Qed.

Lemma cwr_indices_walk (r lo : nat) :
  lo < n ->
  Enum.walk n (repeat lo r) (Enum.cwr_indices n r lo) (repeat (n - 1) r).
Proof.
  revert lo. induction r as [|r IHr]; intros lo Hlo.
  - constructor.
  - cbn [Enum.cwr_indices].
    replace (n - lo) with (S (n - lo - 1)) by lia.
    apply walk_blocks; [exact IHr | lia].
Qed.

Lemma cwr_indices_length (r lo : nat) :
  length (Enum.cwr_indices n r lo) <= n ^ r.
Proof.
  revert lo. induction r as [|r IHr]; intros lo; cbn [Enum.cwr_indices].
  - reflexivity.
  - rewrite length_flat_map.
    assert (H : forall l : list nat,
               list_sum (map (fun i => length (map (cons i)
                                 (Enum.cwr_indices n r i))) l)
               <= length l * n ^ r).
    { induction l as [|i l IHl]; simpl.
      - lia.
      - rewrite length_map. specialize (IHr i). lia. }
    specialize (H (seq lo (n - lo))). rewrite length_seq in H.
    cbn [Nat.pow]. nia.
Qed.

End Walk.

Section Generator.

Variable pool : list Z.

Lemma cwr_loop_walk a l z :
  Enum.walk (length pool) a l z ->
  Itertools.next_indices (length pool) z = None ->
  forall fuel, length l <= fuel ->
  Itertools.cwr_loop fuel pool a = Some (map (Itertools.pick pool) (tl l)).
Proof.
  induction 1 as [a | a b l z Hab W IH]; intros Hz fuel Hfuel;
    (destruct fuel as [|fuel]; [cbn [length] in Hfuel; lia|]);
    cbn [Itertools.cwr_loop tl].
  - now rewrite Hz.
  - rewrite Hab, (IH Hz fuel) by (cbn [length] in Hfuel; lia).
    destruct (walk_nonempty _ _ _ _ W) as [l' ->]. reflexivity.
Qed.

Lemma cwr_indices_walk_0 (r : nat) :
  r = 0 \/ 0 < length pool ->
  Enum.walk (length pool) (repeat 0 r)
    (Enum.cwr_indices (length pool) r 0) (repeat (length pool - 1) r).
Proof.
  intros [-> | Hn].
  - constructor.
  - now apply cwr_indices_walk.
Qed.

(** The generator run with enough passes yields the enumeration, tuple by
    tuple, and then returns. *)
Lemma cwr_with_fuel_indices (fuel r : nat) :
  length (Enum.cwr_indices (length pool) r 0) <= fuel ->
  Itertools.cwr_with_fuel fuel pool r
  = Some (map (Itertools.pick pool) (Enum.cwr_indices (length pool) r 0)).
Proof.
  intros Hfuel. unfold Itertools.cwr_with_fuel.
  assert (Hwalk : r = 0 \/ 0 < length pool ->
            option_map (cons (Itertools.pick pool (repeat 0 r)))
                       (Itertools.cwr_loop fuel pool (repeat 0 r))
            = Some (map (Itertools.pick pool)
                        (Enum.cwr_indices (length pool) r 0))).
  { intros Hr. assert (W := cwr_indices_walk_0 r Hr).
    rewrite (cwr_loop_walk _ _ _ W (next_indices_top _ _) fuel Hfuel).
    destruct (walk_nonempty _ _ _ _ W) as [l' ->]. reflexivity. }
  destruct (Nat.eqb_spec (length pool) 0) as [En|En];
    destruct (Nat.eqb_spec r 0) as [Er|Er]; cbn [andb negb];
    try (apply Hwalk; lia).
  rewrite En. destruct r as [|r]; [congruence | reflexivity].
Qed.

(** [n ^ r] passes are enough. *)
Theorem cwr_with_fuel_enough (r : nat) :
  Itertools.cwr_with_fuel (length pool ^ r) pool r
  = Some (Itertools.combinations_with_replacement pool r).
Proof.
  unfold Itertools.combinations_with_replacement.
  now rewrite cwr_with_fuel_indices by apply cwr_indices_length.
Qed.

Theorem combinations_with_replacement_indices (r : nat) :
  Itertools.combinations_with_replacement pool r
  = map (Itertools.pick pool) (Enum.cwr_indices (length pool) r 0).
Proof.
  unfold Itertools.combinations_with_replacement.
  now rewrite cwr_with_fuel_indices by apply cwr_indices_length.
Qed.

End Generator.

(** ** The enumeration as a filter of all position tuples *)

Section Positions.

Variable n : nat.

Lemma filter_flat_map {A B : Type} (f : B -> bool) (g : A -> list B) l :
  filter f (flat_map g l) = flat_map (fun a => filter f (g a)) l.
Proof.
  induction l as [|a l IH]; cbn [flat_map].
  - reflexivity.
  - now rewrite filter_app, IH.
Qed.

Lemma flat_map_seq_from {B : Type} (h : nat -> list B) (lo k : nat) :
  flat_map (fun i => if lo <=? i then h i else []) (seq 0 k)
  = flat_map h (seq lo (k - lo)).
Proof.
  induction k as [|k IH].
  - reflexivity.
  - rewrite seq_S, flat_map_app, IH. cbn [flat_map Nat.add].
    rewrite app_nil_r.
    destruct (Nat.leb_spec lo k) as [Hle|Hlt].
    + replace (S k - lo) with (S (k - lo)) by lia.
      rewrite seq_S, flat_map_app. cbn [flat_map].
      rewrite app_nil_r. do 2 f_equal. lia.
    + replace (S k - lo) with 0 by lia. replace (k - lo) with 0 by lia.
      reflexivity.
Qed.

Lemma filter_positions_from (r lo : nat) :
  filter (fun t => Spec.nondecreasing (lo :: t)) (Spec.positions n r)
  = Enum.cwr_indices n r lo.
Proof.
  revert lo. induction r as [|r IHr]; intros lo.
  - reflexivity.
  - cbn [Spec.positions Enum.cwr_indices].
    rewrite filter_flat_map, <- flat_map_seq_from.
    apply flat_map_ext. intros i.
    rewrite filter_map_swap.
    destruct (lo <=? i) eqn:E.
    + rewrite <- IHr. f_equal. apply filter_ext. intros t.
      cbn [Spec.nondecreasing]. now rewrite E.
    + rewrite (filter_ext _ (fun _ => false)), filter_false; [reflexivity|].
      intros t. cbn [Spec.nondecreasing]. now rewrite E.
Qed.

Theorem filter_positions (r : nat) :
  filter Spec.nondecreasing (Spec.positions n r) = Enum.cwr_indices n r 0.
Proof.
  rewrite <- filter_positions_from. apply filter_ext.
  intros [|i t]; reflexivity.
Qed.

Lemma positions_In (r : nat) (t : list nat) :
  In t (Spec.positions n r) <-> length t = r /\ Forall (fun i => i < n) t.
Proof.
  revert t. induction r as [|r IHr]; intros t; cbn [Spec.positions].
  - split.
    + intros [<- | []]. split; [reflexivity | constructor].
    + intros [Hl _]. left. symmetry. now apply length_zero_iff_nil.
  - rewrite in_flat_map. split.
    + intros (i & Hi & Ht). apply in_map_iff in Ht as (t' & <- & Ht').
      apply IHr in Ht' as [Hl Hall]. apply in_seq in Hi.
      split; [cbn; lia | constructor; [lia | exact Hall]].
    + intros [Hl Hall]. destruct t as [|i t]; [discriminate|].
      inversion Hall as [|? ? Hi Hall']; subst.
      exists i. split; [apply in_seq; lia|].
      apply in_map, IHr. split; [cbn in Hl; lia | exact Hall'].
Qed.

(** What the enumeration contains. *)
Lemma cwr_indices_In (r : nat) (t : list nat) :
  In t (Enum.cwr_indices n r 0) <->
  length t = r /\ Forall (fun i => i < n) t /\ Spec.nondecreasing t = true.
Proof.
  rewrite <- filter_positions, filter_In, positions_In. tauto.
Qed.

End Positions.

(** ** The finder *)

Section Finder.

Variable stamps : list Z.

Lemma sum_total (combo : list Z) : Py.sum combo = Spec.total combo.
Proof.
  unfold Py.sum, Spec.total. apply fold_symmetric; intros; lia.
Qed.

Lemma range_sizes (max_stamps : Z) :
  map Z.to_nat (Py.range 1 (max_stamps + 1)) = seq 1 (Z.to_nat max_stamps).
Proof.
  unfold Py.range. rewrite map_map, <- seq_shift.
  replace (max_stamps + 1 - 1)%Z with max_stamps by lia.
  apply map_ext. intros i. lia.
Qed.

(** Lines 24-29 as a concatenation over the sizes [1 .. max_stamps]. *)
Lemma combos_sizes (max_stamps : Z) :
  combos stamps max_stamps
  = flat_map (Itertools.combinations_with_replacement stamps)
             (seq 1 (Z.to_nat max_stamps)).
Proof.
  unfold combos, Itertools.chain.
  rewrite <- range_sizes, flat_map_concat_map, map_map. reflexivity.
Qed.

(** At positions of the list, the tuple the generator builds holds the
    denominations that stand there. *)
Lemma drawn_at_pick (t : list nat) :
  Forall (fun i => i < length stamps) t ->
  Spec.drawn_at stamps t = Itertools.pick stamps t.
Proof.
  induction 1 as [|i t Hi _ IH]; cbn [Spec.drawn_at flat_map]; [reflexivity|].
  rewrite (nth_error_nth' stamps 0%Z Hi). cbn [app].
  unfold Spec.drawn_at in IH. now rewrite IH.
Qed.

Lemma combinations_of_size_cwr (r : nat) :
  Spec.combinations_of_size stamps r
  = Itertools.combinations_with_replacement stamps r.
Proof.
  unfold Spec.combinations_of_size.
  rewrite filter_positions, combinations_with_replacement_indices.
  apply map_ext_in. intros t Ht.
  apply cwr_indices_In in Ht as (_ & Hrange & _).
  now apply drawn_at_pick.
Qed.

Lemma in_budget_spec (price_cents max_price_cents : Z) (combo : list Z) :
  in_budget price_cents max_price_cents combo = true
  <-> (price_cents <= Py.sum combo <= max_price_cents)%Z.
Proof.
  unfold in_budget. rewrite andb_true_iff, Z.geb_le, Z.leb_le. tauto.
Qed.

(** Once both amounts convert, the call returns the filtered list. *)
Lemma calculate_stamp_combos_ok
  (price_dollars max_price_dollars : float) (max_stamps : Z)
  (price_cents max_price_cents : Z) :
  to_cents price_dollars = Py.Ok price_cents ->
  to_cents max_price_dollars = Py.Ok max_price_cents ->
  calculate_stamp_combos price_dollars stamps max_stamps max_price_dollars
  = Py.Ok (filter (in_budget price_cents max_price_cents)
                  (combos stamps max_stamps)).
Proof.
  intros Hp Hm. unfold calculate_stamp_combos. now rewrite Hp, Hm.
Qed.

(** What the chained generators yield: the tuples picked at the
    non-decreasing position tuples of 1 to [max_stamps] positions. *)
Lemma combos_In (max_stamps : Z) (combo : list Z) :
  In combo (combos stamps max_stamps) <->
  exists t : list nat,
    combo = Itertools.pick stamps t
    /\ (1 <= Z.of_nat (length t) <= max_stamps)%Z
    /\ Forall (fun i => i < length stamps) t
    /\ Spec.nondecreasing t = true.
Proof.
  rewrite combos_sizes, in_flat_map. split.
  - intros (r & Hr & Hc). apply in_seq in Hr.
    rewrite combinations_with_replacement_indices in Hc.
    apply in_map_iff in Hc as (t & <- & Ht).
    apply cwr_indices_In in Ht as (Hl & Hall & Hnd).
    exists t. repeat split; auto; lia.
  - intros (t & -> & Hl & Hall & Hnd).
    exists (length t). split; [apply in_seq; lia|].
    rewrite combinations_with_replacement_indices.
    apply in_map, cwr_indices_In. auto.
Qed.

Lemma pick_length (t : list nat) :
  length (Itertools.pick stamps t) = length t.
Proof. apply length_map. Qed.

Lemma pick_In (t : list nat) :
  Forall (fun i => i < length stamps) t ->
  Forall (fun x => In x stamps) (Itertools.pick stamps t).
Proof.
  intros Hall. unfold Itertools.pick. apply Forall_map.
  eapply Forall_impl; [|exact Hall]. intros i Hi. now apply nth_In.
Qed.

(** A longer limit adds size classes at the end. *)
Lemma combos_prefix (max_stamps max_stamps' : Z) :
  (max_stamps <= max_stamps')%Z ->
  combos stamps max_stamps'
  = combos stamps max_stamps
    ++ flat_map (Itertools.combinations_with_replacement stamps)
         (seq (1 + Z.to_nat max_stamps)
              (Z.to_nat max_stamps' - Z.to_nat max_stamps)).
Proof.
  intros Hle. rewrite !combos_sizes, <- flat_map_app, <- seq_app.
  do 2 f_equal. lia.
Qed.

(** Tightening the upper bound is a further filter. *)
Lemma filter_in_budget_narrow (target maximum maximum' : Z) l :
  (maximum <= maximum')%Z ->
  filter (in_budget target maximum) l
  = filter (fun combo => (Py.sum combo <=? maximum)%Z)
           (filter (in_budget target maximum') l).
Proof.
  intros Hle. induction l as [|c l IH]; cbn [filter]; [reflexivity|].
  rewrite IH. unfold in_budget.
  destruct (Py.sum c >=? target)%Z; cbn [andb]; [|reflexivity].
  destruct (Z.leb_spec (Py.sum c) maximum) as [H1|H1];
    destruct (Z.leb_spec (Py.sum c) maximum') as [H2|H2];
    try lia; cbn [filter];
    try destruct (Z.leb_spec (Py.sum c) maximum); try lia; reflexivity.
Qed.

Lemma count_occ_filter_le {A : Type} (dec : forall x y : A, {x = y} + {x <> y})
  (f : A -> bool) (l : list A) (x : A) :
  count_occ dec (filter f l) x <= count_occ dec l x.
Proof.
  induction l as [|a l IH]; cbn [filter count_occ].
  - lia.
  - destruct (f a); cbn [count_occ]; destruct (dec a x); lia.
Qed.

End Finder.

(** ** The order of the enumeration *)

Section Order.

Lemma StronglySorted_app {A : Type} (R : A -> A -> Prop) (l1 l2 : list A) :
  StronglySorted R l1 ->
  StronglySorted R l2 ->
  (forall x y, In x l1 -> In y l2 -> R x y) ->
  StronglySorted R (l1 ++ l2).
Proof.
  intros S1 S2 Hcross. induction S1 as [|a l S1 IH Ha]; cbn [app].
  - exact S2.
  - constructor.
    + apply IH. intros x y Hx. apply Hcross. now right.
    + apply Forall_app. split; [exact Ha|].
      apply Forall_forall. intros y Hy. apply Hcross; [now left | exact Hy].
Qed.

Lemma StronglySorted_filter {A : Type} (R : A -> A -> Prop) (f : A -> bool) l :
  StronglySorted R l -> StronglySorted R (filter f l).
Proof.
  induction 1 as [|a l S IH Ha]; cbn [filter].
  - constructor.
  - destruct (f a); [|exact IH]. constructor; [exact IH|].
    apply Forall_forall. intros y Hy. apply filter_In in Hy as [Hy _].
    revert y Hy. now apply Forall_forall.
Qed.

Lemma StronglySorted_map_cons (i : nat) (l : list (list nat)) :
  StronglySorted Spec.lex_lt l ->
  StronglySorted Spec.lex_lt (map (cons i) l).
Proof.
  induction 1 as [|a l S IH Ha]; cbn [map]; constructor.
  - exact IH.
  - apply Forall_map. eapply Forall_impl; [|exact Ha].
    intros b Hab. now apply Spec.lex_tail.
Qed.

Lemma blocks_sorted (P : list (list nat)) (s len : nat) :
  StronglySorted Spec.lex_lt P ->
  StronglySorted Spec.lex_lt (flat_map (fun i => map (cons i) P) (seq s len)).
Proof.
  intros HP. revert s. induction len as [|len IH]; intros s; cbn [seq flat_map].
  - constructor.
  - apply StronglySorted_app.
    + now apply StronglySorted_map_cons.
    + apply IH.
    + intros x y Hx Hy.
      apply in_map_iff in Hx as (a & <- & _).
      apply in_flat_map in Hy as (j & Hj & Hy).
      apply in_map_iff in Hy as (b & <- & _).
      apply in_seq in Hj. apply Spec.lex_head. lia.
Qed.

(** The position tuples are listed in strictly increasing lexicographic
    order, and so are the non-decreasing ones among them. *)
Lemma positions_sorted (n r : nat) :
  StronglySorted Spec.lex_lt (Spec.positions n r).
Proof.
  induction r as [|r IH]; cbn [Spec.positions].
  - repeat constructor.
  - now apply blocks_sorted.
Qed.

Theorem cwr_indices_sorted (n r : nat) :
  StronglySorted Spec.lex_lt (Enum.cwr_indices n r 0).
Proof.
  rewrite <- filter_positions. apply StronglySorted_filter, positions_sorted.
Qed.

End Order.

(** ** No deduplication *)

Section Singles.

Variable stamps : list Z.

Lemma map_nth_seq (l : list Z) :
  map (fun i => nth i l 0%Z) (seq 0 (length l)) = l.
Proof.
  induction l as [|a l IH]; cbn [length seq map nth].
  - reflexivity.
  - f_equal. rewrite <- seq_shift, map_map. exact IH.
Qed.

(** The size class 1 is the input list, position by position. *)
Lemma combinations_of_one :
  Itertools.combinations_with_replacement stamps 1
  = map (fun stamp => [stamp]) stamps.
Proof.
  rewrite combinations_with_replacement_indices. cbn [Enum.cwr_indices].
  rewrite Nat.sub_0_r.
  rewrite <- (map_nth_seq stamps) at 3. rewrite map_map.
  assert (E : forall l : list nat,
             flat_map (fun i => map (cons i) [[]]) l = map (fun i => [i]) l).
  { induction l as [|i l IH]; simpl; [reflexivity | now f_equal]. }
  rewrite E, map_map. reflexivity.
Qed.

Lemma count_singles (target maximum x : Z) (l : list Z) :
  (target <= x <= maximum)%Z ->
  count_occ (list_eq_dec Z.eq_dec)
            (filter (in_budget target maximum) (map (fun stamp => [stamp]) l))
            [x]
  = count_occ Z.eq_dec l x.
Proof.
  intros Hx. induction l as [|a l IH]; cbn [map filter count_occ].
  - reflexivity.
  - destruct (Z.eq_dec a x) as [->|Hne].
    + replace (in_budget target maximum [x]) with true.
      * cbn [count_occ].
        destruct (list_eq_dec Z.eq_dec [x] [x]); [now f_equal | congruence].
      * symmetry. apply in_budget_spec. cbn. lia.
    + destruct (in_budget target maximum [a]); [|exact IH].
      cbn [count_occ].
      destruct (list_eq_dec Z.eq_dec [a] [x]); [congruence | exact IH].
Qed.

(** A denomination within the bounds is returned alone once for each
    position it has in the input list. *)
Theorem singles_not_deduplicated (target maximum max_stamps x : Z) :
  (1 <= max_stamps)%Z ->
  (target <= x <= maximum)%Z ->
  count_occ (list_eq_dec Z.eq_dec)
            (filter (in_budget target maximum) (combos stamps max_stamps)) [x]
  = count_occ Z.eq_dec stamps x.
Proof.
  intros Hk Hx. rewrite combos_sizes.
  replace (Z.to_nat max_stamps) with (S (Z.to_nat max_stamps - 1)) by lia.
  cbn [seq flat_map]. rewrite filter_app, count_occ_app.
  rewrite combinations_of_one, (count_singles _ _ _ _ Hx).
  match goal with
  | |- _ + ?c = _ => assert (E : c = 0); [|rewrite E; apply Nat.add_0_r]
  end.
  apply count_occ_not_In.
  intros Hin. apply filter_In in Hin as [Hin _].
  apply in_flat_map in Hin as (r & Hr & Hin). apply in_seq in Hr.
  rewrite combinations_with_replacement_indices in Hin.
  apply in_map_iff in Hin as (t & Ht & Hin).
  apply cwr_indices_In in Hin as (Hl & _).
  apply (f_equal (@length Z)) in Ht. rewrite pick_length in Ht.
  cbn [length] in Ht. lia.
Qed.

End Singles.

(** * The claims of the specification *)

(** C1. Every combination the finder returns has its sum in the closed
    interval [target, maximum], between 1 and [max_stamps] stamps, and only
    stamps of the given denominations. [target] and [maximum] are the cents
    the two dollar amounts convert to; the call returns whenever they exist.
    The bounds hold for every such input, also outside the preconditions
    of section 4.1. *)
Theorem returned_combinations_within_bounds
  (price_dollars max_price_dollars : float) (stamps : list Z)
  (max_stamps target maximum : Z) :
  to_cents price_dollars = Py.Ok target ->
  to_cents max_price_dollars = Py.Ok maximum ->
  exists result,
    calculate_stamp_combos price_dollars stamps max_stamps max_price_dollars
    = Py.Ok result
    /\ Forall (fun combo =>
                 (target <= Py.sum combo <= maximum)%Z
                 /\ (1 <= Z.of_nat (length combo) <= max_stamps)%Z
                 /\ Forall (fun stamp => In stamp stamps) combo)
              result.
Proof.
  intros Hp Hm. eexists. split.
  - exact (calculate_stamp_combos_ok _ _ _ _ _ _ Hp Hm).
  - apply Forall_forall. intros combo Hin.
    apply filter_In in Hin as [Hin Hbudget].
    apply in_budget_spec in Hbudget.
    apply combos_In in Hin as (t & -> & Hlen & Hrange & _).
    rewrite pick_length. repeat split; try lia.
    now apply pick_In.
Qed.

Lemma returned_combinations_within_bounds_witness :
  exists result,
    calculate_stamp_combos 1.70 [78; 44; 37; 29; 25; 20]%Z 5 1.74
    = Py.Ok result
    /\ Forall (fun combo =>
                 (170 <= Py.sum combo <= 174)%Z
                 /\ (1 <= Z.of_nat (length combo) <= 5)%Z
                 /\ Forall (fun stamp => In stamp [78; 44; 37; 29; 25; 20]%Z)
                           combo)
              result.
Proof.
  apply (returned_combinations_within_bounds
           1.70 1.74 [78; 44; 37; 29; 25; 20]%Z 5 170 174);
    vm_compute; reflexivity.
Defined.

(** C2. The finder returns exactly what the algorithm of section 4.1
    describes: for the sizes 1 to [max_stamps] in increasing order, the
    combinations-with-replacement of that size in lexicographic order of
    the input positions, filtered to the sums in [target, maximum], in that
    order. *)
Theorem finder_refines_specification
  (price_dollars max_price_dollars : float) (stamps : list Z)
  (max_stamps target maximum : Z) :
  to_cents price_dollars = Py.Ok target ->
  to_cents max_price_dollars = Py.Ok maximum ->
  calculate_stamp_combos price_dollars stamps max_stamps max_price_dollars
  = Py.Ok (Spec.find_combinations stamps target max_stamps maximum).
Proof.
  intros Hp Hm.
  rewrite (calculate_stamp_combos_ok _ _ _ _ _ _ Hp Hm).
  unfold Spec.find_combinations. rewrite combos_sizes.
  rewrite (flat_map_ext _ _ (combinations_of_size_cwr stamps)).
  f_equal. apply filter_ext. intros combo.
  unfold in_budget. now rewrite sum_total, Z.geb_leb.
Qed.

Lemma finder_refines_specification_witness :
  calculate_stamp_combos 1.70 [78; 44; 37; 29; 25; 20]%Z 5 1.74
  = Py.Ok (Spec.find_combinations [78; 44; 37; 29; 25; 20]%Z 170 5 174).
Proof.
  apply (finder_refines_specification
           1.70 1.74 [78; 44; 37; 29; 25; 20]%Z 5 170 174);
    vm_compute; reflexivity.
Defined.

(** C3. The cents used by the filter are [int(value * 100)], a truncation,
    not [round(value * 100)]: for a target and a maximum of 0.29 dollars the
    float product is just below 29, the filter uses 28 cents where rounding
    gives 29, and the finder returns nothing for a single 29-cent stamp. *)
Theorem truncation_drops_a_cent :
  to_cents 0.29 = Py.Ok 28%Z
  /\ Py.round (0.29 * 100)%float = Py.Ok 29%Z
  /\ calculate_stamp_combos 0.29 [29]%Z 1 0.29 = Py.Ok []
  /\ filter (in_budget 29 29) (combos [29]%Z 1) = [[29]%Z].
Proof. vm_compute. repeat split; reflexivity. Qed.

(** C4. With the other arguments fixed, a maximum of [maximum] cents returns
    the combinations returned for a wider [maximum'] whose sum is at most
    [maximum]: each combination is returned at most as many times as for
    the wider bound, and every one of them is also returned for it. *)
Theorem widening_maximum_keeps_results
  (price_dollars max_price_dollars max_price_dollars' : float)
  (stamps : list Z) (max_stamps target maximum maximum' : Z) :
  to_cents price_dollars = Py.Ok target ->
  to_cents max_price_dollars = Py.Ok maximum ->
  to_cents max_price_dollars' = Py.Ok maximum' ->
  (maximum <= maximum')%Z ->
  exists narrow wide,
    calculate_stamp_combos price_dollars stamps max_stamps max_price_dollars
    = Py.Ok narrow
    /\ calculate_stamp_combos price_dollars stamps max_stamps max_price_dollars'
       = Py.Ok wide
    /\ narrow = filter (fun combo => (Py.sum combo <=? maximum)%Z) wide
    /\ (forall combo,
          count_occ (list_eq_dec Z.eq_dec) narrow combo
          <= count_occ (list_eq_dec Z.eq_dec) wide combo)
    /\ incl narrow wide.
Proof.
  intros Hp Hm Hm' Hle. do 2 eexists.
  split; [exact (calculate_stamp_combos_ok _ _ _ _ _ _ Hp Hm)|].
  split; [exact (calculate_stamp_combos_ok _ _ _ _ _ _ Hp Hm')|].
  rewrite (filter_in_budget_narrow target maximum maximum' _ Hle).
  split; [reflexivity|]. split.
  - intros combo. apply count_occ_filter_le.
  - intros combo Hin. now apply filter_In in Hin.
Qed.

Lemma widening_maximum_keeps_results_witness :
  exists narrow wide,
    calculate_stamp_combos 1.70 [78; 44; 37; 29; 25; 20]%Z 5 1.72
    = Py.Ok narrow
    /\ calculate_stamp_combos 1.70 [78; 44; 37; 29; 25; 20]%Z 5 1.74
       = Py.Ok wide
    /\ narrow = filter (fun combo => (Py.sum combo <=? 172)%Z) wide
    /\ (forall combo,
          count_occ (list_eq_dec Z.eq_dec) narrow combo
          <= count_occ (list_eq_dec Z.eq_dec) wide combo)
    /\ incl narrow wide.
Proof.
  apply (widening_maximum_keeps_results
           1.70 1.72 1.74 [78; 44; 37; 29; 25; 20]%Z 5 170 172 174);
    [vm_compute; reflexivity .. | lia].
Defined.

(** C5. With the other arguments fixed, every combination returned with the
    limit [max_stamps] is returned with a larger limit [max_stamps'], at
    least as many times. *)
Theorem raising_max_stamps_keeps_results
  (price_dollars max_price_dollars : float) (stamps : list Z)
  (max_stamps max_stamps' target maximum : Z) :
  to_cents price_dollars = Py.Ok target ->
  to_cents max_price_dollars = Py.Ok maximum ->
  (max_stamps <= max_stamps')%Z ->
  exists fewer more,
    calculate_stamp_combos price_dollars stamps max_stamps max_price_dollars
    = Py.Ok fewer
    /\ calculate_stamp_combos price_dollars stamps max_stamps' max_price_dollars
       = Py.Ok more
    /\ incl fewer more
    /\ (forall combo,
          count_occ (list_eq_dec Z.eq_dec) fewer combo
          <= count_occ (list_eq_dec Z.eq_dec) more combo).
Proof.
  intros Hp Hm Hle. do 2 eexists.
  split; [exact (calculate_stamp_combos_ok _ _ _ _ _ _ Hp Hm)|].
  split; [exact (calculate_stamp_combos_ok _ _ _ _ _ _ Hp Hm)|].
  rewrite (combos_prefix stamps max_stamps max_stamps' Hle), filter_app.
  split.
  - intros combo Hin. apply in_or_app. now left.
  - intros combo. rewrite count_occ_app. lia.
Qed.

Lemma raising_max_stamps_keeps_results_witness :
  exists fewer more,
    calculate_stamp_combos 1.70 [78; 44; 37; 29; 25; 20]%Z 4 1.74
    = Py.Ok fewer
    /\ calculate_stamp_combos 1.70 [78; 44; 37; 29; 25; 20]%Z 5 1.74
       = Py.Ok more
    /\ incl fewer more
    /\ (forall combo,
          count_occ (list_eq_dec Z.eq_dec) fewer combo
          <= count_occ (list_eq_dec Z.eq_dec) more combo).
Proof.
  apply (raising_max_stamps_keeps_results
           1.70 1.74 [78; 44; 37; 29; 25; 20]%Z 4 5 170 174);
    [vm_compute; reflexivity .. | lia].
Defined.

(** C6, as the code has it. When the two products [value * 100] are finite
    floats, the call raises nothing: both amounts convert to integer cents
    and a list is returned, the empty list when the maximum cents are below
    the target cents. When a product is infinite or a NaN, the conversion
    of lines 22-23 raises and no list is returned. *)
Theorem degenerate_bounds_return_nothing
  (price_dollars max_price_dollars : float) (stamps : list Z)
  (max_stamps : Z) :
  (Py.isfinite (price_dollars * 100)%float = true ->
   Py.isfinite (max_price_dollars * 100)%float = true ->
   exists target maximum result,
     to_cents price_dollars = Py.Ok target
     /\ to_cents max_price_dollars = Py.Ok maximum
     /\ calculate_stamp_combos price_dollars stamps max_stamps
                               max_price_dollars
        = Py.Ok result
     /\ ((maximum < target)%Z -> result = []))
  /\ (Py.isfinite (price_dollars * 100)%float = false
      \/ Py.isfinite (max_price_dollars * 100)%float = false ->
      exists e,
        calculate_stamp_combos price_dollars stamps max_stamps
                               max_price_dollars
        = Py.Raise e).
Proof.
  assert (Hcents : forall x,
            if Py.isfinite (x * 100)%float
            then exists cents, to_cents x = Py.Ok cents
            else exists e, to_cents x = Py.Raise e).
  { intros x. unfold Py.isfinite, to_cents, Py.int.
    destruct (Prim2SF (x * 100)%float); eauto. }
  pose proof (Hcents price_dollars) as Hp.
  pose proof (Hcents max_price_dollars) as Hm.
  split.
  - intros Fp Fm. rewrite Fp in Hp. rewrite Fm in Hm.
    destruct Hp as (target & Htarget). destruct Hm as (maximum & Hmaximum).
    exists target, maximum,
      (filter (in_budget target maximum) (combos stamps max_stamps)).
    split; [exact Htarget|]. split; [exact Hmaximum|].
    split; [exact (calculate_stamp_combos_ok _ _ _ _ _ _ Htarget Hmaximum)|].
    intros Hlt.
    rewrite (filter_ext _ (fun _ => false)); [apply filter_false|].
    intros combo. apply not_true_is_false. rewrite in_budget_spec. lia.
  - unfold calculate_stamp_combos. intros [Fp | Fm].
    + rewrite Fp in Hp. destruct Hp as (e & ->). exists e. reflexivity.
    + rewrite Fm in Hm. destruct Hm as (e & Hm).
      destruct (to_cents price_dollars) as [target | e'];
        [rewrite Hm; exists e | exists e']; reflexivity.
Qed.

Lemma degenerate_bounds_return_nothing_witness :
  exists target maximum result,
    to_cents 1.74 = Py.Ok target
    /\ to_cents 1.70 = Py.Ok maximum
    /\ calculate_stamp_combos 1.74 [78; 44; 37; 29; 25; 20]%Z 5 1.70
       = Py.Ok result
    /\ ((maximum < target)%Z -> result = []).
Proof.
  apply (proj1 (degenerate_bounds_return_nothing
                  1.74 1.70 [78; 44; 37; 29; 25; 20]%Z 5));
    vm_compute; reflexivity.
Defined.

(** C6 as stated fails: a price of 1e307 dollars and a maximum of one
    dollar are a maximum below the target, yet the product [1e307 * 100] is
    infinite, [int] raises [OverflowError], and no list is returned. *)
Lemma degenerate_bounds_can_raise :
  (1.0 <? 1e307)%float = true
  /\ Py.isfinite 1e307 = true
  /\ calculate_stamp_combos 1e307 [29]%Z 1 1.0 = Py.Raise Py.OverflowError
  /\ ~ (exists result,
          calculate_stamp_combos 1e307 [29]%Z 1 1.0 = Py.Ok result).
Proof.
  split; [vm_compute; reflexivity|].
  split; [vm_compute; reflexivity|].
  assert (E : calculate_stamp_combos 1e307 [29]%Z 1 1.0
              = Py.Raise Py.OverflowError) by (vm_compute; reflexivity).
  split; [exact E|].
  intros (result & H). rewrite E in H. discriminate.
Qed.

(** The same at 1e308 dollars: [int] has no value for an infinite
    product. *)
Example to_cents_overflow :
  calculate_stamp_combos 1e308 [29]%Z 1 1.74 = Py.Raise Py.OverflowError.
Proof. vm_compute. reflexivity. Qed.

(** C8. Scenario B: one denomination of 50, a target and a maximum of 100
    cents and at most 2 stamps give exactly the one combination (50, 50),
    of sum 100 and size 2. *)
Theorem scenario_B (price_dollars max_price_dollars : float) :
  to_cents price_dollars = Py.Ok 100%Z ->
  to_cents max_price_dollars = Py.Ok 100%Z ->
  calculate_stamp_combos price_dollars [50]%Z 2 max_price_dollars
  = Py.Ok [[50; 50]%Z]
  /\ Py.sum [50; 50]%Z = 100%Z
  /\ length [50; 50]%Z = 2.
Proof.
  intros Hp Hm. rewrite (calculate_stamp_combos_ok _ _ _ _ _ _ Hp Hm).
  vm_compute. repeat split; reflexivity.
Qed.

Lemma scenario_B_witness :
  calculate_stamp_combos 1.0 [50]%Z 2 1.0 = Py.Ok [[50; 50]%Z]
  /\ Py.sum [50; 50]%Z = 100%Z
  /\ length [50; 50]%Z = 2.
Proof.
  apply (scenario_B 1.0 1.0); vm_compute; reflexivity.
Defined.

(** C9. A list with the denomination 20 entered twice, a target and a
    maximum of 20 cents and one stamp: a valid input for which the finder
    returns the combination (20) twice, once for each position. *)
Theorem duplicate_denominations_repeat_results :
  exists (price_dollars max_price_dollars : float) (stamps : list Z)
         (max_stamps target maximum : Z) (result : list (list Z))
         (combo : list Z),
    to_cents price_dollars = Py.Ok target
    /\ to_cents max_price_dollars = Py.Ok maximum
    /\ (0 <= target <= maximum)%Z
    /\ (1 <= max_stamps)%Z
    /\ Forall (fun stamp => (0 < stamp)%Z) stamps
    /\ ~ NoDup stamps
    /\ calculate_stamp_combos price_dollars stamps max_stamps max_price_dollars
       = Py.Ok result
    /\ 1 < count_occ (list_eq_dec Z.eq_dec) result combo.
Proof.
  exists 0.2%float, 0.2%float, [20; 20]%Z, 1%Z, 20%Z, 20%Z,
         [[20]; [20]]%Z, [20]%Z.
  split; [vm_compute; reflexivity|].
  split; [vm_compute; reflexivity|].
  split; [lia|]. split; [lia|].
  split; [repeat constructor|].
  split.
  - intros Hnd. inversion Hnd as [|x l Hnotin _]; subst.
    apply Hnotin. now left.
  - split; [vm_compute; reflexivity|].
    vm_compute. apply le_n.
Qed.

(** C10. With the other arguments fixed, the list returned with the limit
    [max_stamps] is a prefix of the list returned with a larger limit. *)
Theorem raising_max_stamps_extends_results
  (price_dollars max_price_dollars : float) (stamps : list Z)
  (max_stamps max_stamps' target maximum : Z) :
  to_cents price_dollars = Py.Ok target ->
  to_cents max_price_dollars = Py.Ok maximum ->
  (max_stamps <= max_stamps')%Z ->
  exists fewer added,
    calculate_stamp_combos price_dollars stamps max_stamps max_price_dollars
    = Py.Ok fewer
    /\ calculate_stamp_combos price_dollars stamps max_stamps' max_price_dollars
       = Py.Ok (fewer ++ added).
Proof.
  intros Hp Hm Hle. do 2 eexists.
  split; [exact (calculate_stamp_combos_ok _ _ _ _ _ _ Hp Hm)|].
  rewrite (calculate_stamp_combos_ok _ _ _ _ _ _ Hp Hm).
  rewrite (combos_prefix stamps max_stamps max_stamps' Hle), filter_app.
  reflexivity.
Qed.

Lemma raising_max_stamps_extends_results_witness :
  exists fewer added,
    calculate_stamp_combos 1.70 [78; 44; 37; 29; 25; 20]%Z 4 1.74
    = Py.Ok fewer
    /\ calculate_stamp_combos 1.70 [78; 44; 37; 29; 25; 20]%Z 5 1.74
       = Py.Ok (fewer ++ added).
Proof.
  apply (raising_max_stamps_extends_results
           1.70 1.74 [78; 44; 37; 29; 25; 20]%Z 4 5 170 174);
    [vm_compute; reflexivity .. | lia].
Defined.

(** * Further properties of [calculate_stamp_combos] *)

(** ** Nothing is missed *)

Section Completeness.

Variable stamps : list Z.

Lemma total_Permutation (l l' : list Z) :
  Permutation l l' -> Spec.total l = Spec.total l'.
Proof.
  unfold Spec.total. induction 1; cbn [fold_right]; lia.
Qed.

(** A tuple whose stamps are all in the list is picked at some positions. *)
Lemma positions_of_selection (selection : list Z) :
  Forall (fun stamp => In stamp stamps) selection ->
  exists t, Itertools.pick stamps t = selection
            /\ Forall (fun i => i < length stamps) t.
Proof.
  induction 1 as [|x l Hx _ (t & Ht & Hall)].
  - exists []. split; [reflexivity | constructor].
  - destruct (In_nth _ _ 0%Z Hx) as (i & Hi & Hnth).
    exists (i :: t). split.
    + cbn [Itertools.pick map]. now rewrite Hnth, <- Ht.
    + now constructor.
Qed.

Lemma nondecreasing_insert (i : nat) (t : list nat) :
  Spec.nondecreasing t = true ->
  exists t', Permutation (i :: t) t' /\ Spec.nondecreasing t' = true
             /\ (forall j, hd_error t' = Some j ->
                   j = i \/ hd_error t = Some j).
Proof.
  induction t as [|a t IH]; intros Hnd.
  - exists [i]. repeat split; auto. intros j [= <-]. now left.
  - destruct (Nat.leb_spec i a) as [Hle|Hlt].
    + exists (i :: a :: t). split; [reflexivity|]. split.
      * cbn [Spec.nondecreasing] in *. apply Nat.leb_le in Hle.
        now rewrite Hle.
      * intros j [= <-]. now left.
    + assert (Ht : Spec.nondecreasing t = true).
      { destruct t; [reflexivity|].
        cbn [Spec.nondecreasing] in Hnd. now apply andb_true_iff in Hnd. }
      destruct (IH Ht) as (t' & Hperm & Hnd' & Hhd).
      exists (a :: t'). split; [|split].
      * rewrite perm_swap. now constructor.
      * destruct t' as [|b t']; [reflexivity|].
        change (Spec.nondecreasing (a :: b :: t'))
          with ((a <=? b) && Spec.nondecreasing (b :: t')).
        rewrite Hnd', andb_true_r. apply Nat.leb_le.
        destruct (Hhd b eq_refl) as [-> | Hb]; [lia|].
        destruct t as [|c t]; [discriminate|]. injection Hb as ->.
        cbn [Spec.nondecreasing] in Hnd.
        apply andb_true_iff in Hnd as [Hac _]. now apply Nat.leb_le.
      * intros j [= <-]. now right.
Qed.

(** Every tuple of positions can be put in non-decreasing order. *)
Lemma nondecreasing_arrangement (t : list nat) :
  exists t', Permutation t t' /\ Spec.nondecreasing t' = true.
Proof.
  induction t as [|i t (t0 & Hperm & Hnd)].
  - exists []. split; [constructor | reflexivity].
  - destruct (nondecreasing_insert i t0 Hnd) as (t' & Hperm' & Hnd' & _).
    exists t'. split; [|exact Hnd'].
    now rewrite Hperm.
Qed.

Lemma combos_complete (max_stamps : Z) (selection : list Z) :
  (1 <= Z.of_nat (length selection) <= max_stamps)%Z ->
  Forall (fun stamp => In stamp stamps) selection ->
  exists combo, In combo (combos stamps max_stamps)
                /\ Permutation combo selection.
Proof.
  intros Hlen Hall.
  destruct (positions_of_selection selection Hall) as (t & <- & Hrange).
  destruct (nondecreasing_arrangement t) as (t' & Hperm & Hnd).
  exists (Itertools.pick stamps t'). split.
  - apply combos_In. exists t'. rewrite pick_length in Hlen.
    rewrite <- (Permutation_length Hperm).
    repeat split; auto; try lia.
    now rewrite <- Hperm.
  - unfold Itertools.pick. apply Permutation_map. now symmetry.
Qed.

End Completeness.

(** ** Sizes, repetitions and order within a combination *)

Section Shape.

Variable stamps : list Z.

Lemma cwr_length (r : nat) (combo : list Z) :
  In combo (Itertools.combinations_with_replacement stamps r) ->
  length combo = r.
Proof.
  rewrite combinations_with_replacement_indices. intros Hin.
  apply in_map_iff in Hin as (t & <- & Ht).
  apply cwr_indices_In in Ht as (Hl & _). now rewrite pick_length.
Qed.

Lemma same_size_ordered (r : nat) (l : list (list Z)) :
  (forall a, In a l -> length a = r) ->
  StronglySorted (fun a b : list Z => length a <= length b) l.
Proof.
  induction l as [|a l IH]; intros Hall; constructor.
  - apply IH. intros b Hb. apply Hall. now right.
  - apply Forall_forall. intros b Hb.
    rewrite (Hall a), (Hall b); [lia | now right | now left].
Qed.

(** The size classes come one after the other, smaller sizes first. *)
Lemma size_classes_ordered (s len : nat) :
  StronglySorted (fun a b : list Z => length a <= length b)
    (flat_map (Itertools.combinations_with_replacement stamps) (seq s len)).
Proof.
  revert s. induction len as [|len IH]; intros s; cbn [seq flat_map].
  - constructor.
  - apply StronglySorted_app.
    + apply (same_size_ordered s). intros a. apply cwr_length.
    + apply IH.
    + intros a b Ha Hb. apply cwr_length in Ha.
      apply in_flat_map in Hb as (r & Hr & Hb).
      apply cwr_length in Hb. apply in_seq in Hr. lia.
Qed.

Lemma lex_lt_irrefl (t : list nat) : ~ Spec.lex_lt t t.
Proof.
  induction t as [|i t IH]; intros H; inversion H; subst; [lia | auto].
Qed.

Lemma StronglySorted_NoDup {A : Type} (R : A -> A -> Prop) (l : list A) :
  (forall a, ~ R a a) -> StronglySorted R l -> NoDup l.
Proof.
  intros Hirr. induction 1 as [|a l S IH Ha]; constructor; [|exact IH].
  intros Hin. apply (Hirr a). revert a Hin Ha. clear.
  intros a Hin Ha. rewrite Forall_forall in Ha. now apply Ha.
Qed.

(** Distinct denominations: different position tuples pick different
    combinations. *)
Lemma pick_injective (t t' : list nat) :
  NoDup stamps ->
  Forall (fun i => i < length stamps) t ->
  Forall (fun i => i < length stamps) t' ->
  Itertools.pick stamps t = Itertools.pick stamps t' ->
  t = t'.
Proof.
  intros Hnd Ht. revert t'.
  induction Ht as [|i t Hi Ht IH]; intros [|j t'] Ht' E;
    try discriminate; [reflexivity|].
  inversion Ht' as [|? ? Hj Ht'']; subst.
  cbn [Itertools.pick map] in E. injection E as Eij E.
  f_equal.
  - exact (proj1 (NoDup_nth stamps 0%Z) Hnd i j Hi Hj Eij).
  - now apply IH.
Qed.

Lemma NoDup_map_on {A B : Type} (f : A -> B) (l : list A) :
  (forall a b, In a l -> In b l -> f a = f b -> a = b) ->
  NoDup l -> NoDup (map f l).
Proof.
  intros Hinj. induction 1 as [|a l Ha Hl IH]; cbn [map]; constructor.
  - intros Hin. apply in_map_iff in Hin as (b & E & Hb).
    apply Ha. rewrite (Hinj a b); auto; [now left | now right].
  - apply IH. intros x y Hx Hy. apply Hinj; now right.
Qed.

Lemma cwr_NoDup (r : nat) :
  NoDup stamps ->
  NoDup (Itertools.combinations_with_replacement stamps r).
Proof.
  intros Hnd. rewrite combinations_with_replacement_indices.
  apply NoDup_map_on.
  - intros t t' Ht Ht'.
    apply cwr_indices_In in Ht as (_ & Ht & _).
    apply cwr_indices_In in Ht' as (_ & Ht' & _).
    now apply pick_injective.
  - apply (StronglySorted_NoDup Spec.lex_lt);
      [exact lex_lt_irrefl | apply cwr_indices_sorted].
Qed.

Lemma combos_NoDup (max_stamps : Z) :
  NoDup stamps -> NoDup (combos stamps max_stamps).
Proof.
  intros Hnd. rewrite combos_sizes.
  generalize 1 as s. induction (Z.to_nat max_stamps) as [|len IH]; intros s;
    cbn [seq flat_map].
  - constructor.
  - apply NoDup_app; [now apply cwr_NoDup | apply IH |].
    intros a Ha Hb. apply cwr_length in Ha.
    apply in_flat_map in Hb as (r & Hr & Hb).
    apply cwr_length in Hb. apply in_seq in Hr. lia.
Qed.

(** No stamps, or no stamp allowed: nothing to yield. *)
Lemma combos_nothing (max_stamps : Z) :
  stamps = [] \/ (max_stamps < 1)%Z -> combos stamps max_stamps = [].
Proof.
  intros H. destruct (combos stamps max_stamps) as [|combo l] eqn:E;
    [reflexivity | exfalso].
  assert (Hin : In combo (combos stamps max_stamps))
    by (rewrite E; now left).
  apply combos_In in Hin as (t & _ & Hlen & Hrange & _).
  destruct H as [-> | Hk]; [|lia].
  destruct t as [|i t]; [cbn in Hlen; lia|].
  inversion Hrange as [|? ? Hi _]; subst. cbn in Hi. lia.
Qed.


End Shape.

(** ** How many candidates *)

Section Counting.

Lemma binomial_small (n k : nat) : n < k -> Count.binomial n k = 0.
Proof.
  revert k. induction n as [|n IH]; intros [|k] Hlt; cbn [Count.binomial];
    try lia.
  rewrite !IH by lia. reflexivity.
Qed.

Lemma list_sum_app (l l' : list nat) :
  list_sum (l ++ l') = list_sum l + list_sum l'.
Proof.
  unfold list_sum. induction l as [|a l IH]; cbn [app fold_right]; lia.
Qed.

Variable n : nat.

Lemma cwr_blocks_count (r : nat) :
  (forall i, length (Enum.cwr_indices n r i)
             = Count.binomial (n - i + r - 1) r) ->
  forall m lo, m = n - lo ->
  list_sum (map (fun i => length (map (cons i) (Enum.cwr_indices n r i)))
                (seq lo m))
  = Count.binomial (m + r) (S r).
Proof.
  intros IHr. induction m as [|m IHm]; intros lo Hm; cbn [seq map].
  - cbn [list_sum fold_right]. symmetry. apply binomial_small. lia.
  - change (list_sum (?a :: ?l)) with (a + list_sum l).
    rewrite length_map, IHr, (IHm (S lo)) by lia.
    replace (n - lo + r - 1) with (m + r) by lia.
    reflexivity.
Qed.

Lemma cwr_indices_count (r lo : nat) :
  length (Enum.cwr_indices n r lo) = Count.binomial (n - lo + r - 1) r.
Proof.
  revert lo. induction r as [|r IHr]; intros lo.
  - cbn [Enum.cwr_indices length]. now destruct (n - lo + 0 - 1).
  - cbn [Enum.cwr_indices]. rewrite length_flat_map.
    rewrite (cwr_blocks_count r IHr (n - lo) lo eq_refl).
    f_equal. lia.
Qed.

Lemma sizes_count (k : nat) :
  list_sum (map (fun r => Count.binomial (n + r - 1) r) (seq 1 k)) + 1
  = Count.binomial (n + k) k.
Proof.
  induction k as [|k IH].
  - cbn [seq map list_sum fold_right]. now destruct (n + 0).
  - rewrite seq_S, map_app, list_sum_app. cbn [map list_sum fold_right].
    replace (n + (1 + k) - 1) with (n + k) by lia.
    replace (n + S k) with (S (n + k)) by lia.
    cbn [Count.binomial Nat.add]. lia.
Qed.

End Counting.

(** ** The finder: more of what it returns *)

(** Any selection of 1 to [max_stamps] stamps of the list whose sum is
    within the bounds is returned, in some order of its stamps. *)
Theorem finder_misses_no_combination
  (price_dollars max_price_dollars : float) (stamps : list Z)
  (max_stamps target maximum : Z) (selection : list Z) :
  to_cents price_dollars = Py.Ok target ->
  to_cents max_price_dollars = Py.Ok maximum ->
  (1 <= Z.of_nat (length selection) <= max_stamps)%Z ->
  Forall (fun stamp => In stamp stamps) selection ->
  (target <= Py.sum selection <= maximum)%Z ->
  exists result combo,
    calculate_stamp_combos price_dollars stamps max_stamps max_price_dollars
    = Py.Ok result
    /\ In combo result
    /\ Permutation combo selection.
Proof.
  intros Hp Hm Hlen Hall Hsum.
  destruct (combos_complete stamps max_stamps selection Hlen Hall)
    as (combo & Hin & Hperm).
  exists (filter (in_budget target maximum) (combos stamps max_stamps)), combo.
  split; [exact (calculate_stamp_combos_ok _ _ _ _ _ _ Hp Hm)|].
  split; [|exact Hperm].
  apply filter_In. split; [exact Hin|].
  apply in_budget_spec.
  rewrite sum_total, (total_Permutation _ _ Hperm), <- sum_total. exact Hsum.
Qed.

Lemma finder_misses_no_combination_witness :
  exists result combo,
    calculate_stamp_combos 1.70 [78; 44; 37; 29; 25; 20]%Z 5 1.74
    = Py.Ok result
    /\ In combo result
    /\ Permutation combo [25; 78; 25; 44]%Z.
Proof.
  apply (finder_misses_no_combination
           1.70 1.74 [78; 44; 37; 29; 25; 20]%Z 5 170 174);
    [vm_compute; reflexivity | vm_compute; reflexivity | cbn; lia | |
     vm_compute; split; discriminate].
  repeat constructor; cbn; tauto.
Defined.

(** When no denomination is entered twice, no combination is returned
    twice. *)
Theorem distinct_denominations_give_distinct_results
  (price_dollars max_price_dollars : float) (stamps : list Z)
  (max_stamps target maximum : Z) :
  to_cents price_dollars = Py.Ok target ->
  to_cents max_price_dollars = Py.Ok maximum ->
  NoDup stamps ->
  exists result,
    calculate_stamp_combos price_dollars stamps max_stamps max_price_dollars
    = Py.Ok result
    /\ NoDup result.
Proof.
  intros Hp Hm Hnd. eexists.
  split; [exact (calculate_stamp_combos_ok _ _ _ _ _ _ Hp Hm)|].
  now apply NoDup_filter, combos_NoDup.
Qed.

Lemma distinct_denominations_give_distinct_results_witness :
  exists result,
    calculate_stamp_combos 1.70 [78; 44; 37; 29; 25; 20]%Z 5 1.74
    = Py.Ok result
    /\ NoDup result.
Proof.
  apply (distinct_denominations_give_distinct_results
           1.70 1.74 [78; 44; 37; 29; 25; 20]%Z 5 170 174);
    [vm_compute; reflexivity | vm_compute; reflexivity |].
  repeat constructor; cbn; intuition lia.
Defined.

(** The combinations are returned by increasing number of stamps. *)
Theorem results_listed_by_size
  (price_dollars max_price_dollars : float) (stamps : list Z)
  (max_stamps target maximum : Z) :
  to_cents price_dollars = Py.Ok target ->
  to_cents max_price_dollars = Py.Ok maximum ->
  exists result,
    calculate_stamp_combos price_dollars stamps max_stamps max_price_dollars
    = Py.Ok result
    /\ StronglySorted (fun a b : list Z => length a <= length b) result.
Proof.
  intros Hp Hm. eexists.
  split; [exact (calculate_stamp_combos_ok _ _ _ _ _ _ Hp Hm)|].
  apply StronglySorted_filter. rewrite combos_sizes.
  apply size_classes_ordered.
Qed.

Lemma results_listed_by_size_witness :
  exists result,
    calculate_stamp_combos 1.70 [78; 44; 37; 29; 25; 20]%Z 5 1.74
    = Py.Ok result
    /\ StronglySorted (fun a b : list Z => length a <= length b) result.
Proof.
  apply (results_listed_by_size
           1.70 1.74 [78; 44; 37; 29; 25; 20]%Z 5 170 174);
    vm_compute; reflexivity.
Defined.

(** With no denomination, or with a limit below one stamp, the finder
    returns the empty list. *)
Theorem nothing_to_combine
  (price_dollars max_price_dollars : float) (stamps : list Z)
  (max_stamps target maximum : Z) :
  to_cents price_dollars = Py.Ok target ->
  to_cents max_price_dollars = Py.Ok maximum ->
  stamps = [] \/ (max_stamps < 1)%Z ->
  calculate_stamp_combos price_dollars stamps max_stamps max_price_dollars
  = Py.Ok [].
Proof.
  intros Hp Hm H.
  rewrite (calculate_stamp_combos_ok _ _ _ _ _ _ Hp Hm).
  now rewrite (combos_nothing stamps max_stamps H).
Qed.

Lemma nothing_to_combine_witness :
  calculate_stamp_combos 1.70 [] 5 1.74 = Py.Ok []
  /\ calculate_stamp_combos 1.70 [78; 44]%Z 0 1.74 = Py.Ok [].
Proof.
  split.
  - apply (nothing_to_combine 1.70 1.74 [] 5 170 174);
      [vm_compute; reflexivity | vm_compute; reflexivity | now left].
  - apply (nothing_to_combine 1.70 1.74 [78; 44]%Z 0 170 174);
      [vm_compute; reflexivity | vm_compute; reflexivity | right; lia].
Defined.

(** A denomination within the bounds is returned as a one-stamp
    combination, as many times as it was entered. *)
Theorem single_stamp_results
  (price_dollars max_price_dollars : float) (stamps : list Z)
  (max_stamps target maximum x : Z) :
  to_cents price_dollars = Py.Ok target ->
  to_cents max_price_dollars = Py.Ok maximum ->
  (1 <= max_stamps)%Z ->
  (target <= x <= maximum)%Z ->
  exists result,
    calculate_stamp_combos price_dollars stamps max_stamps max_price_dollars
    = Py.Ok result
    /\ count_occ (list_eq_dec Z.eq_dec) result [x]
       = count_occ Z.eq_dec stamps x.
Proof.
  intros Hp Hm Hk Hx. eexists.
  split; [exact (calculate_stamp_combos_ok _ _ _ _ _ _ Hp Hm)|].
  now apply singles_not_deduplicated.
Qed.

Lemma single_stamp_results_witness :
  exists result,
    calculate_stamp_combos 0.25 [25; 20; 25]%Z 2 0.5 = Py.Ok result
    /\ count_occ (list_eq_dec Z.eq_dec) result [25]%Z
       = count_occ Z.eq_dec [25; 20; 25]%Z 25%Z.
Proof.
  apply (single_stamp_results 0.25 0.5 [25; 20; 25]%Z 2 25 50);
    [vm_compute; reflexivity | vm_compute; reflexivity | lia | lia].
Defined.



(** The chained generators yield one tuple for every multiset of 1 to
    [max_stamps] positions of the list: [C(n + k, k) - 1] candidates for
    [n] denominations and a limit of [k] stamps, all of them filtered. *)
Theorem candidates_examined (stamps : list Z) (max_stamps : Z) :
  length (combos stamps max_stamps) + 1
  = Count.binomial (length stamps + Z.to_nat max_stamps)
                   (Z.to_nat max_stamps).
Proof.
  rewrite combos_sizes, length_flat_map, <- sizes_count.
  f_equal. f_equal. apply map_ext. intros r.
  rewrite combinations_with_replacement_indices, length_map.
  rewrite cwr_indices_count. f_equal. lia.
Qed.

(** [combinations_with_replacement(pool, r)]: whatever the pool and [r],
    the loop reaches its [return] within [n ^ r] passes, and more passes
    change nothing; it has then yielded [C(n + r - 1, r)] tuples. *)
Theorem generator_returns (pool : list Z) (r fuel : nat) :
  length pool ^ r <= fuel ->
  Itertools.cwr_with_fuel fuel pool r
  = Some (Itertools.combinations_with_replacement pool r)
  /\ length (Itertools.combinations_with_replacement pool r)
     = Count.binomial (length pool + r - 1) r.
Proof.
  intros Hfuel. rewrite combinations_with_replacement_indices. split.
  - apply cwr_with_fuel_indices.
    etransitivity; [apply cwr_indices_length | exact Hfuel].
  - rewrite length_map, cwr_indices_count. f_equal. lia.
Qed.

Lemma generator_returns_witness :
  Itertools.cwr_with_fuel 50 [78; 44; 37]%Z 3
  = Some (Itertools.combinations_with_replacement [78; 44; 37]%Z 3)
  /\ length (Itertools.combinations_with_replacement [78; 44; 37]%Z 3)
     = Count.binomial (length [78; 44; 37]%Z + 3 - 1) 3.
Proof.
  apply (generator_returns [78; 44; 37]%Z 3 50). cbn. lia.
Defined.

(** * Properties of [main] *)

(** ** [min] and [max] *)

Section MinMax.

Context {A : Type}.
Variable key : A -> Z.

Lemma min_from_In (best : A) (items : list A) :
  In (PyMin.min_from key best items) (best :: items).
Proof.
  revert best. induction items as [|x items IH]; intros best;
    cbn [PyMin.min_from].
  - now left.
  - destruct (IH (if (key x <? key best)%Z then x else best)) as [E|Hin].
    + rewrite <- E. destruct (key x <? key best)%Z; cbn; auto.
    + right. now right.
Qed.

Lemma min_from_le_best (best : A) (items : list A) :
  (key (PyMin.min_from key best items) <= key best)%Z.
Proof.
  revert best. induction items as [|x items IH]; intros best;
    cbn [PyMin.min_from]; [lia|].
  specialize (IH (if (key x <? key best)%Z then x else best)).
  destruct (Z.ltb_spec (key x) (key best)); lia.
Qed.

Lemma min_from_le (best : A) (items : list A) (x : A) :
  In x (best :: items) ->
  (key (PyMin.min_from key best items) <= key x)%Z.
Proof.
  revert best. induction items as [|y items IH]; intros best Hin.
  - destruct Hin as [<- | []]. cbn. lia.
  - cbn [PyMin.min_from].
    set (best' := if (key y <? key best)%Z then y else best).
    assert (Hbest' : (key best' <= key best)%Z /\ (key best' <= key y)%Z)
      by (subst best'; destruct (Z.ltb_spec (key y) (key best)); lia).
    destruct Hin as [<- | [<- | Hin]].
    + pose proof (min_from_le_best best' items). lia.
    + pose proof (min_from_le_best best' items). lia.
    + apply IH. now right.
Qed.

(** The item kept is the first of the smallest: all those before it have a
    larger key. *)
Lemma min_from_first (best : A) (items : list A) :
  exists before after,
    best :: items = before ++ PyMin.min_from key best items :: after
    /\ Forall (fun b => (key (PyMin.min_from key best items) < key b)%Z)
              before.
Proof.
  revert best. induction items as [|x items IH]; intros best;
    cbn [PyMin.min_from].
  - exists [], []. split; [reflexivity | constructor].
  - destruct (Z.ltb_spec (key x) (key best)) as [Hlt|Hge].
    + destruct (IH x) as (before & after & E & Hbefore).
      exists (best :: before), after. split.
      * cbn [app]. now rewrite <- E.
      * constructor; [|exact Hbefore].
        pose proof (min_from_le_best x items). lia.
    + destruct (IH best) as (before & after & E & Hbefore).
      destruct before as [|b before].
      * cbn [app] in E. injection E as Ebest Eitems.
        exists [], (x :: items). split; [|constructor].
        cbn [app]. now rewrite <- Ebest.
      * cbn [app] in E. injection E as <- Eitems.
        exists (best :: x :: before), after. split.
        -- cbn [app]. now rewrite <- Eitems.
        -- inversion Hbefore as [|? ? Hb Hbefore']; subst.
           constructor; [exact Hb|]. constructor; [lia | exact Hbefore'].
Qed.

Lemma min_from_head (best : A) (items : list A) :
  Forall (fun x => (key best <= key x)%Z) items ->
  PyMin.min_from key best items = best.
Proof.
  induction 1 as [|x items Hx _ IH]; cbn [PyMin.min_from]; [reflexivity|].
  destruct (Z.ltb_spec (key x) (key best)); [lia | exact IH].
Qed.

Lemma min_from_map (best : A) (items : list A) :
  PyMin.min_from (fun v => v) (key best) (map key items)
  = key (PyMin.min_from key best items).
Proof.
  revert best. induction items as [|x items IH]; intros best;
    cbn [PyMin.min_from map]; [reflexivity|].
  rewrite <- IH. now destruct (key x <? key best)%Z.
Qed.

Lemma min_from_shift (c : Z) (best : A) (items : list A) :
  PyMin.min_from (fun x => (key x - c)%Z) best items
  = PyMin.min_from key best items.
Proof.
  revert best. induction items as [|x items IH]; intros best;
    cbn [PyMin.min_from]; [reflexivity|].
  rewrite IH. f_equal.
  destruct (Z.ltb_spec (key x - c) (key best - c));
    destruct (Z.ltb_spec (key x) (key best)); try lia; reflexivity.
Qed.

Lemma max_from_In (best : A) (items : list A) :
  In (PyMin.max_from key best items) (best :: items).
Proof.
  revert best. induction items as [|x items IH]; intros best;
    cbn [PyMin.max_from].
  - now left.
  - destruct (IH (if (key x >? key best)%Z then x else best)) as [E|Hin].
    + rewrite <- E. destruct (key x >? key best)%Z; cbn; auto.
    + right. now right.
Qed.

Lemma max_from_ge_best (best : A) (items : list A) :
  (key best <= key (PyMin.max_from key best items))%Z.
Proof.
  revert best. induction items as [|x items IH]; intros best;
    cbn [PyMin.max_from]; [lia|].
  specialize (IH (if (key x >? key best)%Z then x else best)).
  destruct (Z.gtb_spec (key x) (key best)); lia.
Qed.

End MinMax.

(** ** The results block *)

Section Report.

Variable price_dollars : float.

Lemma results_data_ok (price_cents : Z) (valid_combos : list (list Z)) :
  to_cents price_dollars = Py.Ok price_cents ->
  results_data price_dollars valid_combos
  = Py.Ok (map (fun combo =>
                  {| row_combo := combo;
                     total_cents := Py.sum combo;
                     stamps_used := len combo;
                     overpayment_cents := (Py.sum combo - price_cents)%Z |})
               valid_combos).
Proof.
  intros Hp. induction valid_combos as [|combo l IH];
    cbn [results_data map]; [reflexivity|].
  unfold table_row. rewrite Hp, IH. reflexivity.
Qed.

(** The block returns a report exactly when the price converts and there
    is a combination to show; the report is then the following. *)
Lemma results_block_inv (valid_combos : list (list Z)) (r : report) :
  results_block price_dollars valid_combos = Py.Ok r ->
  exists price_cents first rest,
    to_cents price_dollars = Py.Ok price_cents
    /\ valid_combos = first :: rest
    /\ rows r
       = map (fun combo =>
                {| row_combo := combo;
                   total_cents := Py.sum combo;
                   stamps_used := len combo;
                   overpayment_cents := (Py.sum combo - price_cents)%Z |})
             valid_combos
    /\ total_combinations r = len valid_combos
    /\ min_total_cents r = Py.sum (PyMin.min_from Py.sum first rest)
    /\ max_total_cents r = Py.sum (PyMin.max_from Py.sum first rest)
    /\ min_stamps r = len (PyMin.min_from len first rest)
    /\ min_overpay_combo r = PyMin.min_from Py.sum first rest
    /\ min_overpay_cents r
       = (Py.sum (PyMin.min_from Py.sum first rest) - price_cents)%Z
    /\ min_stamps_combo r = PyMin.min_from len first rest.
Proof.
  unfold results_block. intros H.
  destruct (to_cents price_dollars) as [price_cents|e] eqn:Hp.
  - rewrite (results_data_ok price_cents valid_combos Hp) in H.
    destruct valid_combos as [|first rest]; [discriminate|].
    cbn [Py.bind PyMin.min_by PyMin.max_by map] in H.
    injection H as <-. exists price_cents, first, rest. cbn.
    rewrite (min_from_map Py.sum), (min_from_map len),
      (min_from_shift Py.sum price_cents).
    repeat split; try reflexivity.
    clear. revert first.
    induction rest as [|x rest IH]; intros first; cbn [PyMin.max_from map];
      [reflexivity|].
    rewrite <- IH. now destruct (Py.sum x >? Py.sum first)%Z.
  - destruct valid_combos as [|first rest]; cbn in H.
    + discriminate.
    + unfold table_row in H. rewrite Hp in H. discriminate.
Qed.

Lemma results_block_total (price_cents : Z) (first : list Z) rest :
  to_cents price_dollars = Py.Ok price_cents ->
  exists r, results_block price_dollars (first :: rest) = Py.Ok r.
Proof.
  intros Hp. unfold results_block.
  rewrite (results_data_ok price_cents _ Hp), Hp. cbn. eauto.
Qed.

End Report.

Lemma calculate_stamp_combos_inv
  (price_dollars max_price_dollars : float) (stamps : list Z)
  (max_stamps : Z) (valid_combos : list (list Z)) :
  calculate_stamp_combos price_dollars stamps max_stamps max_price_dollars
  = Py.Ok valid_combos ->
  exists target maximum,
    to_cents price_dollars = Py.Ok target
    /\ to_cents max_price_dollars = Py.Ok maximum
    /\ valid_combos
       = filter (in_budget target maximum) (combos stamps max_stamps).
Proof.
  unfold calculate_stamp_combos. intros H.
  destruct (to_cents price_dollars) as [target|]; [|discriminate].
  destruct (to_cents max_price_dollars) as [maximum|]; [|discriminate].
  injection H as <-. eauto.
Qed.

(** The "Fewest Stamps" recommendation is the first combination the finder
    returned, and the "Fewest Stamps" metric is its number of stamps. *)
Theorem fewest_stamps_is_first_result
  (price_dollars max_price_dollars : float) (stamps : list Z)
  (max_stamps : Z) (first : list Z) (rest : list (list Z)) :
  calculate_stamp_combos price_dollars stamps max_stamps max_price_dollars
  = Py.Ok (first :: rest) ->
  exists r,
    results_block price_dollars (first :: rest) = Py.Ok r
    /\ min_stamps_combo r = first
    /\ min_stamps r = len first.
Proof.
  intros Hcalc.
  destruct (calculate_stamp_combos_inv _ _ _ _ _ Hcalc)
    as (target & maximum & Hp & Hm & E).
  destruct (results_block_total price_dollars target first rest Hp)
    as (r & Hr).
  exists r. split; [exact Hr|].
  destruct (results_block_inv _ _ _ Hr)
    as (pc & f & rs & _ & Evc & _ & _ & _ & _ & Hmin & _ & _ & Hcombo).
  injection Evc as <- <-.
  assert (Hhead : PyMin.min_from len first rest = first).
  { apply min_from_head.
    assert (S : StronglySorted (fun a b : list Z => length a <= length b)
                  (first :: rest)).
    { rewrite E, combos_sizes.
      apply StronglySorted_filter, size_classes_ordered. }
    apply StronglySorted_inv in S as [_ S].
    eapply Forall_impl; [|exact S]. intros c Hc. cbv beta in Hc.
    unfold len. lia. }
  rewrite Hcombo, Hmin, Hhead. split; reflexivity.
Qed.

Lemma fewest_stamps_is_first_result_witness :
  exists r,
    results_block 1.0 ([50; 50] :: [[50; 30; 30]])%Z = Py.Ok r
    /\ min_stamps_combo r = [50; 50]%Z
    /\ min_stamps r = len [50; 50]%Z.
Proof.
  apply (fewest_stamps_is_first_result 1.0 1.1 [50; 30]%Z 3).
  vm_compute. reflexivity.
Defined.

(** The "Lowest Overpayment" recommendation is one of the returned
    combinations and the cheapest of them: its cost is the "Minimum Cost"
    metric, its overpayment is that cost less the target, lies between 0
    and [maximum - target], and no row of the table overpays less. *)
Theorem lowest_overpayment_is_cheapest
  (price_dollars max_price_dollars : float) (stamps : list Z)
  (max_stamps target maximum : Z) (first : list Z) (rest : list (list Z)) :
  to_cents price_dollars = Py.Ok target ->
  to_cents max_price_dollars = Py.Ok maximum ->
  calculate_stamp_combos price_dollars stamps max_stamps max_price_dollars
  = Py.Ok (first :: rest) ->
  exists r,
    results_block price_dollars (first :: rest) = Py.Ok r
    /\ In (min_overpay_combo r) (first :: rest)
    /\ Py.sum (min_overpay_combo r) = min_total_cents r
    /\ min_overpay_cents r = (min_total_cents r - target)%Z
    /\ (0 <= min_overpay_cents r <= maximum - target)%Z
    /\ Forall (fun row => (min_overpay_cents r <= overpayment_cents row)%Z)
              (rows r).
Proof.
  intros Hp Hm Hcalc.
  destruct (results_block_total price_dollars target first rest Hp)
    as (r & Hr).
  exists r. split; [exact Hr|].
  destruct (results_block_inv _ _ _ Hr)
    as (pc & f & rs & Hpc & Evc & Hrows & _ & Hmin & _ & _ & Hcombo
        & Hcents & _).
  injection Evc as <- <-.
  assert (pc = target) by congruence. subst pc.
  rewrite Hcombo, Hmin, Hcents, Hrows.
  pose proof (min_from_In Py.sum first rest) as Hin.
  rewrite (calculate_stamp_combos_ok _ _ _ _ _ _ Hp Hm) in Hcalc.
  injection Hcalc as Hcalc.
  assert (Hbudget : (target <= Py.sum (PyMin.min_from Py.sum first rest)
                     <= maximum)%Z).
  { rewrite <- Hcalc in Hin. apply filter_In in Hin as [_ Hin].
    now apply in_budget_spec. }
  repeat split; try lia; try exact Hin.
  apply Forall_map, Forall_forall. intros c Hc. cbn.
  pose proof (min_from_le Py.sum first rest c Hc). lia.
Qed.

Lemma lowest_overpayment_is_cheapest_witness :
  exists r,
    results_block 1.0 ([50; 50] :: [[50; 30; 30]])%Z = Py.Ok r
    /\ In (min_overpay_combo r) ([50; 50] :: [[50; 30; 30]])%Z
    /\ Py.sum (min_overpay_combo r) = min_total_cents r
    /\ min_overpay_cents r = (min_total_cents r - 100)%Z
    /\ (0 <= min_overpay_cents r <= 110 - 100)%Z
    /\ Forall (fun row => (min_overpay_cents r <= overpayment_cents row)%Z)
              (rows r).
Proof.
  apply (lowest_overpayment_is_cheapest 1.0 1.1 [50; 30]%Z 3 100 110);
    vm_compute; reflexivity.
Defined.

(** Among combinations of the same lowest cost, "Lowest Overpayment" shows
    the one listed first: every combination before it costs more. *)
Theorem lowest_overpayment_is_first_of_cheapest
  (price_dollars : float) (price_cents : Z)
  (first : list Z) (rest : list (list Z)) :
  to_cents price_dollars = Py.Ok price_cents ->
  exists r before after,
    results_block price_dollars (first :: rest) = Py.Ok r
    /\ first :: rest = before ++ min_overpay_combo r :: after
    /\ Forall (fun combo => (Py.sum (min_overpay_combo r) < Py.sum combo)%Z)
              before.
Proof.
  intros Hp.
  destruct (results_block_total price_dollars price_cents first rest Hp)
    as (r & Hr).
  destruct (results_block_inv _ _ _ Hr)
    as (pc & f & rs & _ & Evc & _ & _ & _ & _ & _ & Hcombo & _).
  injection Evc as <- <-.
  destruct (min_from_first Py.sum first rest) as (before & after & E & Hb).
  exists r, before, after. rewrite Hcombo. auto.
Qed.

Lemma lowest_overpayment_is_first_of_cheapest_witness :
  exists r before after,
    results_block 1.70 ([78; 44; 29; 20] :: [[44; 44; 37; 25; 20];
                                             [78; 37; 37; 20];
                                             [44; 44; 37; 25; 20]])%Z
    = Py.Ok r
    /\ ([78; 44; 29; 20] :: [[44; 44; 37; 25; 20]; [78; 37; 37; 20];
                             [44; 44; 37; 25; 20]])%Z
       = before ++ min_overpay_combo r :: after
    /\ Forall (fun combo => (Py.sum (min_overpay_combo r) < Py.sum combo)%Z)
              before.
Proof.
  apply (lowest_overpayment_is_first_of_cheapest 1.70 170).
  vm_compute. reflexivity.
Defined.

(** The metrics stay within the search bounds: target <= "Minimum Cost" <=
    "Maximum Cost" <= maximum, 1 <= "Fewest Stamps" <= the limit, and
    "Total Combinations" counts the rows of the table. *)
Theorem report_within_bounds
  (price_dollars max_price_dollars : float) (stamps : list Z)
  (max_stamps target maximum : Z) (first : list Z) (rest : list (list Z)) :
  to_cents price_dollars = Py.Ok target ->
  to_cents max_price_dollars = Py.Ok maximum ->
  calculate_stamp_combos price_dollars stamps max_stamps max_price_dollars
  = Py.Ok (first :: rest) ->
  exists r,
    results_block price_dollars (first :: rest) = Py.Ok r
    /\ (target <= min_total_cents r <= max_total_cents r)%Z
    /\ (max_total_cents r <= maximum)%Z
    /\ (1 <= min_stamps r <= max_stamps)%Z
    /\ total_combinations r = len (rows r).
Proof.
  intros Hp Hm Hcalc.
  destruct (results_block_total price_dollars target first rest Hp)
    as (r & Hr).
  exists r. split; [exact Hr|].
  destruct (results_block_inv _ _ _ Hr)
    as (pc & f & rs & _ & Evc & Hrows & Htotal & Hmin & Hmax & Hfew & _).
  injection Evc as <- <-.
  rewrite Hmin, Hmax, Hfew, Htotal, Hrows.
  rewrite (calculate_stamp_combos_ok _ _ _ _ _ _ Hp Hm) in Hcalc.
  injection Hcalc as Hcalc.
  assert (Hall : forall c, In c (first :: rest) ->
            (target <= Py.sum c <= maximum)%Z
            /\ (1 <= len c <= max_stamps)%Z).
  { intros c Hc. rewrite <- Hcalc in Hc. apply filter_In in Hc as [Hc Hb].
    apply in_budget_spec in Hb.
    apply combos_In in Hc as (t & -> & Hlen & _).
    unfold len. rewrite pick_length. split; [exact Hb | exact Hlen]. }
  pose proof (Hall _ (min_from_In Py.sum first rest)) as [H1 _].
  pose proof (Hall _ (max_from_In Py.sum first rest)) as [H2 _].
  pose proof (Hall _ (min_from_In len first rest)) as [_ H3].
  pose proof (min_from_le Py.sum first rest _
                (max_from_In Py.sum first rest)) as H4.
  repeat split; try lia.
  unfold len. now rewrite length_map.
Qed.

Lemma report_within_bounds_witness :
  exists r,
    results_block 1.0 ([50; 50] :: [[50; 30; 30]])%Z = Py.Ok r
    /\ (100 <= min_total_cents r <= max_total_cents r)%Z
    /\ (max_total_cents r <= 110)%Z
    /\ (1 <= min_stamps r <= 3)%Z
    /\ total_combinations r = len (rows r).
Proof.
  apply (report_within_bounds 1.0 1.1 [50; 30]%Z 3 100 110);
    vm_compute; reflexivity.
Defined.

(** The table holds one row for each returned combination, in whatever
    order the sort of line 153 leaves the rows; each row's cost is the sum
    of its stamps, its count their number, and its overpayment the cost
    less the target, between 0 and [maximum - target]. *)
Theorem table_rows_within_bounds
  (price_dollars max_price_dollars : float) (stamps : list Z)
  (max_stamps target maximum : Z) (valid_combos : list (list Z)) :
  to_cents price_dollars = Py.Ok target ->
  to_cents max_price_dollars = Py.Ok maximum ->
  calculate_stamp_combos price_dollars stamps max_stamps max_price_dollars
  = Py.Ok valid_combos ->
  exists data,
    results_data price_dollars valid_combos = Py.Ok data
    /\ forall shown,
         sorted_in_place data shown ->
         Permutation (map row_combo shown) valid_combos
         /\ Forall (fun row =>
                      total_cents row = Py.sum (row_combo row)
                      /\ stamps_used row = len (row_combo row)
                      /\ overpayment_cents row = (total_cents row - target)%Z
                      /\ (0 <= overpayment_cents row <= maximum - target)%Z
                      /\ (1 <= stamps_used row <= max_stamps)%Z)
                   shown.
Proof.
  intros Hp Hm Hcalc. eexists.
  split; [exact (results_data_ok price_dollars target valid_combos Hp)|].
  intros shown Hshown. unfold sorted_in_place in Hshown. split.
  - rewrite <- Hshown, map_map. cbn. now rewrite map_id.
  - rewrite <- Hshown.
    apply Forall_map, Forall_forall. intros c Hc. cbn.
    rewrite (calculate_stamp_combos_ok _ _ _ _ _ _ Hp Hm) in Hcalc.
    injection Hcalc as Hcalc. rewrite <- Hcalc in Hc.
    apply filter_In in Hc as [Hc Hb]. apply in_budget_spec in Hb.
    apply combos_In in Hc as (t & -> & Hlen & _).
    unfold len. rewrite pick_length. repeat split; lia.
Qed.

Lemma table_rows_within_bounds_witness :
  exists data,
    results_data 0.01 [[2]; [1]]%Z = Py.Ok data
    /\ forall shown,
         sorted_in_place data shown ->
         Permutation (map row_combo shown) [[2]; [1]]%Z
         /\ Forall (fun row =>
                      total_cents row = Py.sum (row_combo row)
                      /\ stamps_used row = len (row_combo row)
                      /\ overpayment_cents row = (total_cents row - 1)%Z
                      /\ (0 <= overpayment_cents row <= 2 - 1)%Z
                      /\ (1 <= stamps_used row <= 1)%Z)
                   shown.
Proof.
  apply (table_rows_within_bounds 0.01 0.02 [2; 1]%Z 1 1 2);
    vm_compute; reflexivity.
Defined.

(** ** The stamps field *)

Section StampsField.

Lemma split_nonempty (sep : ascii) (s : Str.str) : Str.split sep s <> [].
Proof.
  destruct s as [|c s]; cbn [Str.split]; [discriminate|].
  destruct (Ascii.eqb c sep); [discriminate|].
  destruct (Str.split sep s); discriminate.
Qed.

(** The fields of [a + sep + b] are those of [a] followed by those of [b]. *)
Lemma split_app (sep : ascii) (a b : Str.str) :
  Str.split sep (a ++ sep :: b) = Str.split sep a ++ Str.split sep b.
Proof.
  induction a as [|c a IH]; cbn [app Str.split].
  - now rewrite Ascii.eqb_refl.
  - destruct (Ascii.eqb c sep); rewrite IH; [reflexivity|].
    pose proof (split_nonempty sep a) as Ha.
    destruct (Str.split sep a) as [|field fields]; [congruence|].
    reflexivity.
Qed.

Lemma ints_of_fields_app (fields fields' : list Str.str) :
  ints_of_fields (fields ++ fields')
  = match ints_of_fields fields with
    | Some stamps => option_map (app stamps) (ints_of_fields fields')
    | None => None
    end.
Proof.
  induction fields as [|x fields IH]; cbn [app ints_of_fields].
  - now destruct (ints_of_fields fields').
  - destruct (Str.strip x); [exact IH|].
    destruct (Str.int _); [|reflexivity].
    rewrite IH. destruct (ints_of_fields fields); [|reflexivity].
    now destruct (ints_of_fields fields').
Qed.

Lemma forallb_rev {A : Type} (f : A -> bool) (l : list A) :
  forallb f (rev l) = forallb f l.
Proof.
  induction l as [|a l IH]; cbn [rev forallb]; [reflexivity|].
  rewrite forallb_app, IH. cbn [forallb]. rewrite andb_true_r.
  apply andb_comm.
Qed.

Lemma lstrip_spaces (ws s : Str.str) :
  forallb Str.isspace ws = true -> Str.lstrip (ws ++ s) = Str.lstrip s.
Proof.
  induction ws as [|c ws IH]; cbn [forallb app Str.lstrip]; intros H.
  - reflexivity.
  - apply andb_true_iff in H as [Hc Hws]. rewrite Hc. now apply IH.
Qed.

Lemma lstrip_app (x r : Str.str) :
  forallb Str.isspace r = true ->
  exists r', Str.lstrip (x ++ r) = Str.lstrip x ++ r'
             /\ forallb Str.isspace r' = true.
Proof.
  intros Hr. induction x as [|c x IH]; cbn [app Str.lstrip].
  - exists []. split; [|reflexivity].
    rewrite <- (app_nil_r r). now rewrite lstrip_spaces.
  - destruct (Str.isspace c); [exact IH|].
    exists r. split; [reflexivity | exact Hr].
Qed.

Lemma rstrip_spaces (s ws : Str.str) :
  forallb Str.isspace ws = true -> Str.rstrip (s ++ ws) = Str.rstrip s.
Proof.
  intros H. unfold Str.rstrip. rewrite rev_app_distr, lstrip_spaces;
    [reflexivity | now rewrite forallb_rev].
Qed.

(** White space around a field is not part of it. *)
Lemma strip_padding (l x r : Str.str) :
  forallb Str.isspace l = true ->
  forallb Str.isspace r = true ->
  Str.strip (l ++ x ++ r) = Str.strip x.
Proof.
  intros Hl Hr. unfold Str.strip. rewrite lstrip_spaces by exact Hl.
  destruct (lstrip_app x r Hr) as (r' & -> & Hr').
  now apply rstrip_spaces.
Qed.

End StampsField.

(** Entries on both sides of a comma are read one side after the other:
    the stamps of [a + "," + b] are those of [a] followed by those of [b],
    and the whole list is rejected when either side is. *)
Theorem parse_stamps_app (a b : Str.str) :
  parse_stamps (a ++ ","%char :: b)
  = match parse_stamps a with
    | Some stamps => option_map (app stamps) (parse_stamps b)
    | None => None
    end.
Proof.
  unfold parse_stamps. now rewrite split_app, ints_of_fields_app.
Qed.

(** White space before and after an entry changes nothing: padded fields
    give the same stamps, or the same rejection. *)
Theorem padded_entries_read_alike (l r : Str.str) (fields : list Str.str) :
  forallb Str.isspace l = true ->
  forallb Str.isspace r = true ->
  ints_of_fields (map (fun x => l ++ x ++ r) fields) = ints_of_fields fields.
Proof.
  intros Hl Hr. induction fields as [|x fields IH]; cbn [map ints_of_fields].
  - reflexivity.
  - rewrite (strip_padding l x r Hl Hr), IH. reflexivity.
Qed.

Lemma padded_entries_read_alike_witness :
  ints_of_fields
    (map (fun x => Literal.str "  " ++ x ++ Literal.str " ")
         [Literal.str "78"; Literal.str "44"; Literal.str ""])
  = ints_of_fields [Literal.str "78"; Literal.str "44"; Literal.str ""].
Proof.
  apply (padded_entries_read_alike (Literal.str "  ") (Literal.str " "));
    vm_compute; reflexivity.
Defined.

(** ** The button *)

(** An entry that is not a number leaves [stamps] unbound: the field shows
    its error, and pressing the button with every other input present
    raises [UnboundLocalError], which [except ValueError] does not catch. *)
Theorem invalid_entry_crashes_on_calculate
  (w : widgets) (price_dollars max_price_dollars : float) (limit : Z) :
  stamps_input w <> [] ->
  parse_stamps (stamps_input w) = None ->
  price w = Some price_dollars ->
  max_price w = Some max_price_dollars ->
  max_stamps w = Some limit ->
  button w = true ->
  main w = (EnterValidNumbers, Crashed UnboundLocalError).
Proof.
  intros Hne Hparse Hp Hm Hk Hb. unfold main, load_stamps, on_button.
  destruct (stamps_input w) as [|c s]; [congruence|].
  now rewrite Hparse, Hb, Hp, Hm, Hk.
Qed.

Lemma invalid_entry_crashes_on_calculate_witness :
  main {| stamps_input := Literal.str "78, 4 4";
          price := Some 1.70%float;
          max_price := Some 1.74%float;
          max_stamps := Some 5%Z;
          button := true |}
  = (EnterValidNumbers, Crashed UnboundLocalError).
Proof.
  apply (invalid_entry_crashes_on_calculate _ 1.70 1.74 5);
    vm_compute; (reflexivity || discriminate).
Defined.

(** A field of commas and blanks only binds [stamps] to the empty list:
    the field asks for at least one stamp value, and the button still runs
    the search and reports that nothing was found. *)
Theorem blank_entries_still_search
  (w : widgets) (price_dollars max_price_dollars : float)
  (limit target maximum : Z) :
  stamps_input w <> [] ->
  parse_stamps (stamps_input w) = Some [] ->
  price w = Some price_dollars ->
  max_price w = Some max_price_dollars ->
  max_stamps w = Some limit ->
  button w = true ->
  to_cents price_dollars = Py.Ok target ->
  to_cents max_price_dollars = Py.Ok maximum ->
  main w = (EnterAtLeastOne, NoneFound).
Proof.
  intros Hne Hparse Hp Hm Hk Hb Hpc Hmc. unfold main, load_stamps, on_button.
  destruct (stamps_input w) as [|c s]; [congruence|].
  rewrite Hparse, Hb, Hp, Hm, Hk.
  rewrite (calculate_stamp_combos_ok _ _ _ _ _ _ Hpc Hmc).
  rewrite (combos_nothing [] limit) by now left.
  reflexivity.
Qed.

Lemma blank_entries_still_search_witness :
  main {| stamps_input := Literal.str " , ,";
          price := Some 1.70%float;
          max_price := Some 1.74%float;
          max_stamps := Some 5%Z;
          button := true |}
  = (EnterAtLeastOne, NoneFound).
Proof.
  apply (blank_entries_still_search _ 1.70 1.74 5 170 174);
    vm_compute; (reflexivity || discriminate).
Defined.

Lemma main_pressed
  (w : widgets) (stamps : list Z) (price_dollars max_price_dollars : float)
  (limit : Z) :
  stamps_input w <> [] ->
  parse_stamps (stamps_input w) = Some stamps ->
  price w = Some price_dollars ->
  max_price w = Some max_price_dollars ->
  max_stamps w = Some limit ->
  button w = true ->
  snd (main w)
  = leave_try
      (valid_combos <-
         calculate_stamp_combos price_dollars stamps limit max_price_dollars ;;
       match valid_combos with
       | _ :: _ => r <- results_block price_dollars valid_combos ;;
                   Py.Ok (Found r)
       | [] => Py.Ok NoneFound
       end).
Proof.
  intros Hne Hparse Hp Hm Hk Hb. unfold main, load_stamps, on_button.
  destruct (stamps_input w) as [|c s]; [congruence|].
  rewrite Hparse, Hb, Hp, Hm, Hk. now destruct stamps.
Qed.

(** With a list of stamps read and both amounts converted, the button
    never ends in an error: it reports that nothing was found when the
    finder returns no combination, and shows the results otherwise. *)
Theorem main_shows_results
  (w : widgets) (stamps : list Z) (price_dollars max_price_dollars : float)
  (limit target maximum : Z) :
  stamps_input w <> [] ->
  parse_stamps (stamps_input w) = Some stamps ->
  price w = Some price_dollars ->
  max_price w = Some max_price_dollars ->
  max_stamps w = Some limit ->
  button w = true ->
  to_cents price_dollars = Py.Ok target ->
  to_cents max_price_dollars = Py.Ok maximum ->
  exists valid_combos,
    calculate_stamp_combos price_dollars stamps limit max_price_dollars
    = Py.Ok valid_combos
    /\ ((valid_combos = [] /\ snd (main w) = NoneFound)
        \/ (exists r,
              results_block price_dollars valid_combos = Py.Ok r
              /\ snd (main w) = Found r)).
Proof.
  intros Hne Hparse Hp Hm Hk Hb Hpc Hmc.
  exists (filter (in_budget target maximum) (combos stamps limit)).
  split; [exact (calculate_stamp_combos_ok _ _ _ _ _ _ Hpc Hmc)|].
  rewrite (main_pressed w stamps _ _ _ Hne Hparse Hp Hm Hk Hb).
  rewrite (calculate_stamp_combos_ok _ _ _ _ _ _ Hpc Hmc).
  destruct (filter (in_budget target maximum) (combos stamps limit))
    as [|first rest].
  - left. split; reflexivity.
  - right.
    destruct (results_block_total price_dollars target first rest Hpc)
      as (r & Hr).
    exists r. split; [exact Hr|].
    cbn [Py.bind]. rewrite Hr. reflexivity.
Qed.

Lemma main_shows_results_witness :
  exists valid_combos,
    calculate_stamp_combos 1.0 [50; 30]%Z 3 1.1 = Py.Ok valid_combos
    /\ ((valid_combos = []
         /\ snd (main {| stamps_input := Literal.str "50, 30";
                         price := Some 1.0%float;
                         max_price := Some 1.1%float;
                         max_stamps := Some 3%Z;
                         button := true |}) = NoneFound)
        \/ (exists r,
              results_block 1.0 valid_combos = Py.Ok r
              /\ snd (main {| stamps_input := Literal.str "50, 30";
                              price := Some 1.0%float;
                              max_price := Some 1.1%float;
                              max_stamps := Some 3%Z;
                              button := true |}) = Found r)).
Proof.
  apply (main_shows_results _ [50; 30]%Z 1.0 1.1 3 100 110);
    vm_compute; (reflexivity || discriminate).
Defined.

(** An exception of the finder is shown as an error only when it is a
    [ValueError]; the [OverflowError] of an amount whose cents are not a
    finite float leaves [main]. *)
Theorem finder_exceptions_in_main
  (w : widgets) (stamps : list Z) (price_dollars max_price_dollars : float)
  (limit : Z) (e : Py.exn) :
  stamps_input w <> [] ->
  parse_stamps (stamps_input w) = Some stamps ->
  price w = Some price_dollars ->
  max_price w = Some max_price_dollars ->
  max_stamps w = Some limit ->
  button w = true ->
  calculate_stamp_combos price_dollars stamps limit max_price_dollars
  = Py.Raise e ->
  snd (main w) = match e with
                 | Py.ValueError => ErrorShown
                 | Py.OverflowError => Crashed Overflow
                 end.
Proof.
  intros Hne Hparse Hp Hm Hk Hb Hcalc.
  rewrite (main_pressed w stamps _ _ _ Hne Hparse Hp Hm Hk Hb), Hcalc.
  now destruct e.
Qed.

Lemma finder_exceptions_in_main_witness :
  snd (main {| stamps_input := Literal.str "78, 44";
               price := Some 1e308%float;
               max_price := Some 1e308%float;
               max_stamps := Some 5%Z;
               button := true |})
  = Crashed Overflow.
Proof.
  apply (finder_exceptions_in_main _ [78; 44]%Z 1e308 1e308 5 Py.OverflowError);
    vm_compute; (reflexivity || discriminate).
Defined.
